(** * ConvNeXt-ortho: a shallow embedding of [models/ortho_convnext.py]
      and [object_detection/mmcv_custom/__init__.py]

    The development follows the Python sources class by class.  Tensors are
    shaped index functions over the real numbers; the kernels of the tensor
    library (convolution, linear map, the parametric activations, stochastic
    depth) are an interface, [Torch], that every statement quantifies over.
    Python exceptions raised on the paths of the repository are values of
    [result]. *)

From Stdlib Require Import String Ascii List Bool Arith ZArith QArith Qreals.
From Stdlib Require Import Reals Lia Lra.
Import ListNotations.

Set Implicit Arguments.

Close Scope Q_scope.
Close Scope R_scope.
Close Scope Z_scope.
Open Scope nat_scope.

(** ** Exceptions *)

Inductive exn : Type :=
| NotImplementedError
| IndexError
| TypeError
| AttributeError.

Inductive result (A : Type) : Type :=
| Ok (a : A)
| Raise (e : exn).

Arguments Ok {A} a.
Arguments Raise {A} e.

Definition bind {A B : Type} (r : result A) (k : A -> result B) : result B :=
  match r with
  | Ok a => k a
  | Raise e => Raise e
  end.

Declare Scope py_scope.
Delimit Scope py_scope with py.
Notation "x <- r ;; k" := (bind r (fun x => k))
  (at level 61, r at next level, right associativity) : py_scope.
Notation "' p <- r ;; k" := (bind r (fun p => k))
  (at level 61, p pattern, r at next level, right associativity) : py_scope.
Open Scope string_scope.
Open Scope list_scope.
Open Scope py_scope.

(** ** Tensors

    A tensor is a shape and a value at every index.  Only the values at
    indices inside the shape are meaningful, and two tensors are the same
    ([teq]) when they agree on shape and on those values.  [permute] is
    then, as in the tensor library, a re-indexing. *)

Record Tensor : Type := mkTensor {
  shape : list nat;
  elem : list nat -> R
}.

Definition in_bounds (idx sh : list nat) : Prop := Forall2 lt idx sh.

Definition teq (a b : Tensor) : Prop :=
  shape a = shape b /\
  forall idx, in_bounds idx (shape a) -> elem a idx = elem b idx.

Definition Rsum (n : nat) (f : nat -> R) : R :=
  fold_right (fun k acc => (f k + acc)%R) 0%R (seq 0 n).

Fixpoint set_nth (d v : nat) (l : list nat) : list nat :=
  match l, d with
  | [], _ => []
  | _ :: l', O => v :: l'
  | a :: l', S d' => a :: set_nth d' v l'
  end.

Fixpoint index_of (a : nat) (l : list nat) : nat :=
  match l with
  | [] => 0
  | b :: l' => if Nat.eqb a b then 0 else S (index_of a l')
  end.

Definition ones (sh : list nat) : Tensor := mkTensor sh (fun _ => 1%R).
Definition zeros (sh : list nat) : Tensor := mkTensor sh (fun _ => 0%R).

(** [x.permute(dims)]: axis [k] of the result is axis [dims[k]] of [x]. *)
Definition permute (dims : list nat) (x : Tensor) : Tensor :=
  {| shape := map (fun d => nth d (shape x) 0) dims;
     elem := fun idx =>
       elem x (map (fun a => nth (index_of a dims) idx 0)
                   (seq 0 (length (shape x)))) |}.

(** Broadcasting of two shapes, aligned on the trailing axis: an axis of
    size 1 is stretched to the size of the other operand. *)
Fixpoint broadcast_rev (a b : list nat) : list nat :=
  match a, b with
  | [], _ => b
  | _, [] => a
  | x :: a', y :: b' => (if Nat.eqb x 1 then y else x) :: broadcast_rev a' b'
  end.

Definition broadcast_shape (a b : list nat) : list nat :=
  rev (broadcast_rev (rev a) (rev b)).

(** The index of an operand of shape [sh] that a result index reads. *)
Definition broadcast_index (sh idx : list nat) : list nat :=
  map (fun di => if Nat.eqb (fst di) 1 then 0 else snd di)
      (combine sh (skipn (length idx - length sh) idx)).

Definition pointwise (f : R -> R -> R) (a b : Tensor) : Tensor :=
  {| shape := broadcast_shape (shape a) (shape b);
     elem := fun idx =>
       f (elem a (broadcast_index (shape a) idx))
         (elem b (broadcast_index (shape b) idx)) |}.

Definition tmap (f : R -> R) (x : Tensor) : Tensor :=
  {| shape := shape x; elem := fun idx => f (elem x idx) |}.

Definition tadd : Tensor -> Tensor -> Tensor := pointwise Rplus.
Definition tsub : Tensor -> Tensor -> Tensor := pointwise Rminus.
Definition tmul : Tensor -> Tensor -> Tensor := pointwise Rmult.
Definition tdiv : Tensor -> Tensor -> Tensor := pointwise Rdiv.

(** [x.mean(dim, keepdim=True)] *)
Definition mean_keepdim (dim : nat) (x : Tensor) : Tensor :=
  let n := nth dim (shape x) 0 in
  {| shape := set_nth dim 1 (shape x);
     elem := fun idx =>
       (Rsum n (fun k => elem x (set_nth dim k idx)) / INR n)%R |}.

(** [x.mean([-2, -1])]: the mean over the last two axes, which are dropped. *)
Definition mean_last2 (x : Tensor) : Tensor :=
  let r := length (shape x) in
  let h := nth (r - 2) (shape x) 0 in
  let w := nth (r - 1) (shape x) 0 in
  {| shape := firstn (r - 2) (shape x);
     elem := fun idx =>
       (Rsum h (fun i => Rsum w (fun j => elem x (idx ++ [i; j])))
        / INR (h * w))%R |}.

(** [w[:, None, None]]: two trailing axes of size 1. *)
Definition index_None2 (w : Tensor) : Tensor :=
  {| shape := shape w ++ [1; 1];
     elem := fun idx => elem w (removelast (removelast idx)) |}.

(** [torch.nn.functional.layer_norm] for a one-axis [normalized_shape], as
    the tensor library documents it: over the last axis, the mean and the
    biased variance, [(x - E[x]) / sqrt(Var[x] + eps) * weight + bias]. *)
Definition F_layer_norm (x : Tensor) (normalized_shape : list nat)
    (weight bias : Tensor) (eps : R) : Tensor :=
  let d := nth 0 normalized_shape 0 in
  {| shape := shape x;
     elem := fun idx =>
       let pre := removelast idx in
       let c := last idx 0 in
       let mean := (Rsum d (fun k => elem x (pre ++ [k])) / INR d)%R in
       let var :=
         (Rsum d (fun k => (elem x (pre ++ [k]) - mean) ^ 2) / INR d)%R in
       ((elem x idx - mean) / sqrt (var + eps) * elem weight [c]
        + elem bias [c])%R |}.

(** ** class LayerNorm *)

Module LayerNorm.

Record t : Type := mk {
  weight : Tensor;
  bias : Tensor;
  eps : Q;
  data_format : string;
  normalized_shape : list nat
}.

Definition __init__ (normalized_shape : nat) (eps : Q) (data_format : string)
    : result t :=
  let weight := ones [normalized_shape] in
  let bias := zeros [normalized_shape] in
  if negb (existsb (String.eqb data_format)
                   ["channels_last"; "channels_first"])
  then Raise NotImplementedError
  else Ok (mk weight bias eps data_format [normalized_shape]).

(** The result is [None] when neither branch is taken. *)
Definition forward (self : t) (x : Tensor) : option Tensor :=
  if String.eqb (data_format self) "channels_last" then
    Some (F_layer_norm x (normalized_shape self) (weight self) (bias self)
                       (Q2R (eps self)))
  else if String.eqb (data_format self) "channels_first" then
    let u := mean_keepdim 1 x in
    let s := mean_keepdim 1 (tmap (fun v => (v ^ 2)%R) (tsub x u)) in
    let x := tdiv (tsub x u)
                  (tmap sqrt (tmap (fun v => (v + Q2R (eps self))%R) s)) in
    let x := tadd (tmul (index_None2 (weight self)) x)
                  (index_None2 (bias self)) in
    Some x
  else None.

End LayerNorm.

(** ** Learnable parameters of the library's layers

    [trunc_normal_] draws at random, so the value of a convolution or linear
    parameter is kept symbolic: a parameter is its shape and the in-place
    operations applied to it since the library's constructor returned it,
    oldest first. *)

Inductive InitOp : Type :=
| trunc_normal_ (std : Q)
| constant_ (val : Q)
| mul_ (k : Q).

Record Param : Type := mkParam {
  param_shape : list nat;
  history : list InitOp
}.

Definition new_param (sh : list nat) : Param := mkParam sh [].

Definition inplace (op : InitOp) (p : Param) : Param :=
  mkParam (param_shape p) (history p ++ [op]).

(** ** Activation factories

    [act] is a class ([nn.GELU]) or a [functools.partial] of one of the
    [torchortho] classes with keyword arguments; calling it makes the
    activation module, described by its class and constructor keywords. *)

Inductive ActClass : Type :=
| GELU
| HermiteActivation
| FourierActivation
| TropicalActivation.

Inductive PyVal : Type :=
| VInt (z : Z)
| VBool (b : bool)
| VModule (c : ActClass).

Inductive Callable : Type :=
| Class (c : ActClass)
| partial (func : ActClass) (keywords : list (string * PyVal)).

Record ActInst : Type := mkAct {
  act_class : ActClass;
  act_kwargs : list (string * PyVal)
}.

Definition call (f : Callable) : ActInst :=
  match f with
  | Class c => mkAct c []
  | partial c kw => mkAct c kw
  end.

(** ** The kernels of the tensor library *)

Class Torch : Type := {
  (** [F.conv2d input weight bias stride padding groups] *)
  F_conv2d : Tensor -> Param -> Param -> nat -> nat -> nat -> Tensor;
  (** [F.linear input weight bias] *)
  F_linear : Tensor -> Param -> Param -> Tensor;
  (** the forward pass of an activation module *)
  activation : ActInst -> Tensor -> Tensor;
  (** the forward pass of [timm]'s [DropPath(drop_prob)] *)
  drop_path_f : Q -> Tensor -> Tensor
}.

(** ** Modules *)

Set Warnings "-register-all".

Inductive nn_Module : Type :=
| nn_Conv2d (in_channels out_channels kernel_size stride padding groups : nat)
            (weight bias : Param)
| nn_Linear (in_features out_features : nat) (weight bias : Param)
| nn_LayerNorm (normalized_shape : list nat) (eps : Q) (weight bias : Tensor)
| nn_Identity
| nn_Sequential (layers : list nn_Module)
| DropPath (drop_prob : Q)
| Activation (a : ActInst)
| a_LayerNorm (ln : LayerNorm.t)
| a_Block (dwconv norm pwconv1 act pwconv2 : nn_Module)
          (gamma : option Tensor) (drop_path : nn_Module).

(** [nn.Conv2d(in, out, kernel_size, stride, padding, groups)] and
    [nn.Linear(in, out)] with the parameters as the library leaves them. *)
Definition Conv2d (in_channels out_channels kernel_size stride padding groups
                   : nat) : nn_Module :=
  nn_Conv2d in_channels out_channels kernel_size stride padding groups
    (new_param [out_channels; in_channels / groups; kernel_size; kernel_size])
    (new_param [out_channels]).

Definition Linear (in_features out_features : nat) : nn_Module :=
  nn_Linear in_features out_features
    (new_param [out_features; in_features]) (new_param [out_features]).

Definition Qgt_bool (a b : Q) : bool := negb (Qle_bool a b).

(** [torch.linspace(start, end, steps)] *)
Definition linspace (start stop : Q) (steps : nat) : list Q :=
  map (fun k =>
         (start + (stop - start)
                  * (inject_Z (Z.of_nat k) / inject_Z (Z.of_nat (steps - 1))))%Q)
      (seq 0 steps).

Definition getitem {A : Type} (l : list A) (i : nat) : result A :=
  match nth_error l i with
  | Some a => Ok a
  | None => Raise IndexError
  end.

(** [l[-1]] *)
Definition getitem_last {A : Type} (l : list A) : result A :=
  match l with
  | [] => Raise IndexError
  | _ :: _ => getitem l (length l - 1)
  end.

(** [for i in range: state = body(i, state)] *)
Fixpoint for_ {S : Type} (range : list nat) (body : nat -> S -> result S)
    (s : S) : result S :=
  match range with
  | [] => Ok s
  | i :: range' => s' <- body i s ;; for_ range' body s'
  end.

(** [[f(j) for j in range]] *)
Fixpoint comprehension {A : Type} (f : nat -> result A) (range : list nat)
    : result (list A) :=
  match range with
  | [] => Ok []
  | j :: range' => a <- f j ;; l <- comprehension f range' ;; Ok (a :: l)
  end.

(** ** class Block *)

Module Block.

Definition __init__ (dim : nat) (drop_path layer_scale_init_value : Q)
    (act : Callable) : result nn_Module :=
  let dwconv := Conv2d dim dim 7 1 3 dim in
  norm <- LayerNorm.__init__ dim (1 # 1000000) "channels_last" ;;
  let pwconv1 := Linear dim (4 * dim) in
  let act := Activation (call act) in
  let pwconv2 := Linear (4 * dim) dim in
  let gamma :=
    if Qgt_bool layer_scale_init_value 0
    then Some (tmap (fun v => (Q2R layer_scale_init_value * v)%R)
                    (ones [dim]))
    else None in
  let drop_path :=
    if Qgt_bool drop_path 0 then DropPath drop_path else nn_Identity in
  Ok (a_Block dwconv (a_LayerNorm norm) pwconv1 act pwconv2 gamma drop_path).

(** [self_call] is the call of a submodule on a tensor. *)
Definition forward (self_call : nn_Module -> Tensor -> result Tensor)
    (dwconv norm pwconv1 act pwconv2 : nn_Module) (gamma : option Tensor)
    (drop_path : nn_Module) (x : Tensor) : result Tensor :=
  let input := x in
  x <- self_call dwconv x ;;
  let x := permute [0; 2; 3; 1] x in
  x <- self_call norm x ;;
  x <- self_call pwconv1 x ;;
  x <- self_call act x ;;
  x <- self_call pwconv2 x ;;
  let x := match gamma with
           | Some gamma => tmul gamma x
           | None => x
           end in
  let x := permute [0; 3; 1; 2] x in
  dx <- self_call drop_path x ;;
  let x := tadd input dx in
  Ok x.

End Block.

(** ** Calling a module

    [__call__ m x] is [m(x)]: the forward pass of the class of [m].  A
    [LayerNorm] that returns [None] is reported as the [TypeError] that
    the consumer of the value raises. *)

Fixpoint __call__ `{Torch} (m : nn_Module) (x : Tensor) {struct m}
    : result Tensor :=
  match m with
  | nn_Conv2d _ _ _ stride padding groups weight bias =>
      Ok (F_conv2d x weight bias stride padding groups)
  | nn_Linear _ _ weight bias => Ok (F_linear x weight bias)
  | nn_LayerNorm normalized_shape eps weight bias =>
      Ok (F_layer_norm x normalized_shape weight bias (Q2R eps))
  | nn_Identity => Ok x
  | nn_Sequential layers =>
      (fix run (layers : list nn_Module) (x : Tensor) : result Tensor :=
         match layers with
         | [] => Ok x
         | layer :: layers' => x <- __call__ layer x ;; run layers' x
         end) layers x
  | DropPath drop_prob => Ok (drop_path_f drop_prob x)
  | Activation a => Ok (activation a x)
  | a_LayerNorm ln =>
      match LayerNorm.forward ln x with
      | Some y => Ok y
      | None => Raise TypeError
      end
  | a_Block dwconv norm pwconv1 act pwconv2 gamma drop_path =>
      Block.forward __call__ dwconv norm pwconv1 act pwconv2 gamma drop_path x
  end.

(** [nn.Module.apply(fn)]: the children first, then the module itself.
    [fn m] is the module [m] after [fn] ran on it. *)
Fixpoint apply (fn : nn_Module -> nn_Module) (m : nn_Module) : nn_Module :=
  fn match m with
     | nn_Sequential layers => nn_Sequential (map (apply fn) layers)
     | a_Block dwconv norm pwconv1 act pwconv2 gamma drop_path =>
         a_Block (apply fn dwconv) (apply fn norm) (apply fn pwconv1)
                 (apply fn act) (apply fn pwconv2) gamma (apply fn drop_path)
     | _ => m
     end.

(** [nn.Module.modules()]: the module, then those of its children. *)
Fixpoint modules (m : nn_Module) : list nn_Module :=
  m :: match m with
       | nn_Sequential layers => flat_map modules layers
       | a_Block dwconv norm pwconv1 act pwconv2 _ drop_path =>
           modules dwconv ++ modules norm ++ modules pwconv1 ++ modules act
           ++ modules pwconv2 ++ modules drop_path
       | _ => []
       end.

(** ** Methods as transitions of an object

    A method body can assign to attributes of an object and call in-place
    operations on it: [St S A] is a computation on an object of type [S]
    that ends with a value or an exception, and with the object as it then
    is.  An exception does not undo what was written before it. *)

Definition St (S A : Type) : Type := S -> result A * S.

Definition ret_ {S A : Type} (a : A) : St S A := fun s => (Ok a, s).

Definition bind_ {S A B : Type} (c : St S A) (k : A -> St S B) : St S B :=
  fun s =>
    match c s with
    | (Ok a, s') => k a s'
    | (Raise e, s') => (Raise e, s')
    end.

Notation "x <~ c ;; k" := (bind_ c (fun x => k))
  (at level 61, c at next level, right associativity) : py_scope.

(** An expression that reads the object. *)
Definition read {S A : Type} (f : S -> result A) : St S A :=
  fun s => (f s, s).

(** An in-place operation on the object. *)
Definition update {S : Type} (f : S -> result S) : St S unit :=
  fun s =>
    match f s with
    | Ok s' => (Ok tt, s')
    | Raise e => (Raise e, s)
    end.

(** [layer(x)]: the forward pass of a layer takes the parameters as they
    are and returns a tensor. *)
Definition call_ {S : Type} `{Torch} (layer : nn_Module) (x : Tensor)
    : St S Tensor :=
  read (fun _ => __call__ layer x).

(** [for i in range: x = body(i, x)] in a method body *)
Fixpoint for_st {S X : Type} (range : list nat) (body : nat -> X -> St S X)
    (x : X) : St S X :=
  match range with
  | [] => ret_ x
  | i :: range' => x' <~ body i x ;; for_st range' body x'
  end.

(** ** class ConvNeXt *)

(** [_init_weights(m)]: the module [m] after the call. *)
Definition _init_weights (m : nn_Module) : nn_Module :=
  match m with
  | nn_Conv2d i o k s p g weight bias =>
      nn_Conv2d i o k s p g
        (inplace (trunc_normal_ (2 # 100)) weight) (inplace (constant_ 0) bias)
  | nn_Linear i o weight bias =>
      nn_Linear i o
        (inplace (trunc_normal_ (2 # 100)) weight) (inplace (constant_ 0) bias)
  | _ => m
  end.

(** [m.weight.data.mul_(k)] and [m.bias.data.mul_(k)] *)
Definition weight_data_mul_ (k : Q) (m : nn_Module) : result nn_Module :=
  match m with
  | nn_Conv2d i o ks s p g weight bias =>
      Ok (nn_Conv2d i o ks s p g (inplace (mul_ k) weight) bias)
  | nn_Linear i o weight bias => Ok (nn_Linear i o (inplace (mul_ k) weight) bias)
  | _ => Raise AttributeError
  end.

Definition bias_data_mul_ (k : Q) (m : nn_Module) : result nn_Module :=
  match m with
  | nn_Conv2d i o ks s p g weight bias =>
      Ok (nn_Conv2d i o ks s p g weight (inplace (mul_ k) bias))
  | nn_Linear i o weight bias => Ok (nn_Linear i o weight (inplace (mul_ k) bias))
  | _ => Raise AttributeError
  end.

(** [isinstance(m, (nn.Conv2d, nn.Linear))] *)
Definition isinstance_Conv2d_Linear (m : nn_Module) : bool :=
  match m with
  | nn_Conv2d _ _ _ _ _ _ _ _ => true
  | nn_Linear _ _ _ _ => true
  | _ => false
  end.

(** An in-place initialiser called on [m.weight], on [m.bias]. *)
Definition init_weight (op : InitOp) (m : nn_Module) : result nn_Module :=
  match m with
  | nn_Conv2d i o ks s p g weight bias =>
      Ok (nn_Conv2d i o ks s p g (inplace op weight) bias)
  | nn_Linear i o weight bias => Ok (nn_Linear i o (inplace op weight) bias)
  | _ => Raise AttributeError
  end.

Definition init_bias (op : InitOp) (m : nn_Module) : result nn_Module :=
  match m with
  | nn_Conv2d i o ks s p g weight bias =>
      Ok (nn_Conv2d i o ks s p g weight (inplace op bias))
  | nn_Linear i o weight bias => Ok (nn_Linear i o weight (inplace op bias))
  | _ => Raise AttributeError
  end.

(** The method [_init_weights(self, m)], statement by statement, as a
    transition of the module [m] it is called on. *)
Definition _init_weights_st : St nn_Module unit :=
  isinstance <~ read (fun m => Ok (isinstance_Conv2d_Linear m)) ;;
  if isinstance : bool
  then u <~ update (init_weight (trunc_normal_ (2 # 100))) ;;
       update (init_bias (constant_ 0))
  else ret_ tt.

Module ConvNeXt.

Record t : Type := mk {
  downsample_layers : list nn_Module;
  stages : list nn_Module;
  norm : nn_Module;
  head : nn_Module
}.

(** [self.apply(fn)].  The two [nn.ModuleList]s and the model itself are
    visited as well; they are no layer with parameters of their own. *)
Definition apply_ (fn : nn_Module -> nn_Module) (self : t) : t :=
  mk (map (apply fn) (downsample_layers self))
     (map (apply fn) (stages self))
     (apply fn (norm self))
     (apply fn (head self)).

Definition __init__ (in_chans num_classes : nat) (depths dims : list nat)
    (drop_path_rate layer_scale_init_value head_init_scale : Q)
    (act : Callable) : result t :=
  let downsample_layers := [] in
  d0 <- getitem dims 0 ;;
  let conv := Conv2d in_chans d0 4 4 0 1 in
  d0 <- getitem dims 0 ;;
  ln <- LayerNorm.__init__ d0 (1 # 1000000) "channels_first" ;;
  let stem := nn_Sequential [conv; a_LayerNorm ln] in
  let downsample_layers := downsample_layers ++ [stem] in
  downsample_layers <-
    for_ (seq 0 3)
      (fun i downsample_layers =>
         di <- getitem dims i ;;
         ln <- LayerNorm.__init__ di (1 # 1000000) "channels_first" ;;
         di <- getitem dims i ;;
         di1 <- getitem dims (i + 1) ;;
         let downsample_layer :=
           nn_Sequential [a_LayerNorm ln; Conv2d di di1 2 2 0 1] in
         Ok (downsample_layers ++ [downsample_layer]))
      downsample_layers ;;
  let stages := [] in
  let dp_rates := linspace 0 drop_path_rate (list_sum depths) in
  let cur := 0 in
  '(stages, cur) <-
    for_ (seq 0 4)
      (fun i '(stages, cur) =>
         n <- getitem depths i ;;
         blocks <-
           comprehension
             (fun j =>
                di <- getitem dims i ;;
                dp <- getitem dp_rates (cur + j) ;;
                Block.__init__ di dp layer_scale_init_value act)
             (seq 0 n) ;;
         let stage := nn_Sequential blocks in
         n <- getitem depths i ;;
         Ok (stages ++ [stage], cur + n))
      (stages, cur) ;;
  dl <- getitem_last dims ;;
  let norm := nn_LayerNorm [dl] (1 # 1000000) (ones [dl]) (zeros [dl]) in
  dl <- getitem_last dims ;;
  let head := Linear dl num_classes in
  let self := mk downsample_layers stages norm head in
  let self := apply_ _init_weights self in
  head <- weight_data_mul_ head_init_scale (ConvNeXt.head self) ;;
  head <- bias_data_mul_ head_init_scale head ;;
  Ok (mk (ConvNeXt.downsample_layers self) (ConvNeXt.stages self)
         (ConvNeXt.norm self) head).

Definition forward_features `{Torch} (self : t) (x : Tensor)
    : result Tensor :=
  x <- for_ (seq 0 4)
         (fun i x =>
            layer <- getitem (downsample_layers self) i ;;
            x <- __call__ layer x ;;
            stage <- getitem (stages self) i ;;
            x <- __call__ stage x ;;
            Ok x)
         x ;;
  __call__ (norm self) (mean_last2 x).

Definition forward `{Torch} (self : t) (x : Tensor) : result Tensor :=
  x <- forward_features self x ;;
  x <- __call__ (head self) x ;;
  Ok x.

(** The two methods, statement by statement, as transitions of [self]. *)
Definition forward_features_st `{Torch} (x : Tensor) : St t Tensor :=
  x <~ for_st (seq 0 4)
         (fun i x =>
            layer <~ read (fun self => getitem (downsample_layers self) i) ;;
            x <~ call_ layer x ;;
            stage <~ read (fun self => getitem (stages self) i) ;;
            x <~ call_ stage x ;;
            ret_ x)
         x ;;
  norm <~ read (fun self => Ok (norm self)) ;;
  call_ norm (mean_last2 x).

Definition forward_st `{Torch} (x : Tensor) : St t Tensor :=
  x <~ forward_features_st x ;;
  head <~ read (fun self => Ok (head self)) ;;
  x <~ call_ head x ;;
  ret_ x.

(** The blocks of all stages, in order. *)
Definition blocks (self : t) : list nn_Module :=
  flat_map (fun stage => match stage with
                         | nn_Sequential layers => layers
                         | _ => []
                         end) (stages self).

(** [self.modules()] without the containers. *)
Definition modules_ (self : t) : list nn_Module :=
  flat_map modules (downsample_layers self) ++ flat_map modules (stages self)
  ++ modules (norm self) ++ modules (head self).

End ConvNeXt.

(** ** The keyword arguments of a model constructor

    The keywords that [ConvNeXt.__init__] names, each given or not, and the
    names of the further keywords. *)

Record Kwargs : Type := mkKwargs {
  kw_in_chans : option nat;
  kw_num_classes : option nat;
  kw_depths : option (list nat);
  kw_dims : option (list nat);
  kw_drop_path_rate : option Q;
  kw_layer_scale_init_value : option Q;
  kw_head_init_scale : option Q;
  kw_act : option Callable;
  kw_others : list string
}.

Definition default {A : Type} (d : A) (o : option A) : A :=
  match o with
  | Some a => a
  | None => d
  end.

Module ConvNeXt_call.

(** The parameters of [__init__] that the call
    [ConvNeXt(depths=depths, dims=dims, act=act, **kwargs)] binds itself:
    the object, and the three keywords it writes out. *)
Definition bound_by_call : list string := ["self"; "depths"; "dims"; "act"].

Definition binds_again (kwargs : Kwargs) : bool :=
  existsb (fun k => existsb (String.eqb k) bound_by_call) (kw_others kwargs).

(** [ConvNeXt(depths=depths, dims=dims, act=act, **kwargs)]: a parameter
    bound twice is a [TypeError]; the other named keywords take their
    defaults and [__init__] swallows the rest. *)
Definition new (depths dims : list nat) (act : Callable) (kwargs : Kwargs)
    : result ConvNeXt.t :=
  match kw_depths kwargs, kw_dims kwargs, kw_act kwargs with
  | None, None, None =>
      if binds_again kwargs then Raise TypeError
      else
        ConvNeXt.__init__
          (default 3 (kw_in_chans kwargs))
          (default 1000 (kw_num_classes kwargs))
          depths dims
          (default 0%Q (kw_drop_path_rate kwargs))
          (default (1 # 1000000)%Q (kw_layer_scale_init_value kwargs))
          (default 1%Q (kw_head_init_scale kwargs))
          act
  | _, _, _ => Raise TypeError
  end.

End ConvNeXt_call.

Definition model_urls : list (string * string) :=
  [("convnext_tiny_1k",
    "https://dl.fbaipublicfiles.com/convnext/convnext_tiny_1k_224_ema.pth");
   ("convnext_small_1k",
    "https://dl.fbaipublicfiles.com/convnext/convnext_small_1k_224_ema.pth");
   ("convnext_base_1k",
    "https://dl.fbaipublicfiles.com/convnext/convnext_base_1k_224_ema.pth");
   ("convnext_large_1k",
    "https://dl.fbaipublicfiles.com/convnext/convnext_large_1k_224_ema.pth");
   ("convnext_tiny_22k",
    "https://dl.fbaipublicfiles.com/convnext/convnext_tiny_22k_224.pth");
   ("convnext_small_22k",
    "https://dl.fbaipublicfiles.com/convnext/convnext_small_22k_224.pth");
   ("convnext_base_22k",
    "https://dl.fbaipublicfiles.com/convnext/convnext_base_22k_224.pth");
   ("convnext_large_22k",
    "https://dl.fbaipublicfiles.com/convnext/convnext_large_22k_224.pth");
   ("convnext_xlarge_22k",
    "https://dl.fbaipublicfiles.com/convnext/convnext_xlarge_22k_224.pth")].

(** ** The registered model constructors *)

Definition convnext_hermite_tiny (pretrained in_22k : bool) (kwargs : Kwargs)
    : result ConvNeXt.t :=
  let model :=
    ConvNeXt_call.new [3; 3; 9; 3] [96; 192; 384; 768]
      (partial HermiteActivation [("degree", VInt 3%Z)])
      kwargs in
  model.

Definition convnext_hermite_small (pretrained in_22k : bool) (kwargs : Kwargs)
    : result ConvNeXt.t :=
  let model :=
    ConvNeXt_call.new [3; 3; 27; 3] [96; 192; 384; 768]
      (partial HermiteActivation [("degree", VInt 3%Z)])
      kwargs in
  model.

Definition convnext_hermite_base (pretrained in_22k : bool) (kwargs : Kwargs)
    : result ConvNeXt.t :=
  let model :=
    ConvNeXt_call.new [3; 3; 27; 3] [128; 256; 512; 1024]
      (partial HermiteActivation [("degree", VInt 3%Z)])
      kwargs in
  model.

Definition convnext_fourier_tiny (pretrained in_22k : bool) (kwargs : Kwargs)
    : result ConvNeXt.t :=
  let model :=
    ConvNeXt_call.new [3; 3; 9; 3] [96; 192; 384; 768]
      (partial FourierActivation [("degree", VInt 5%Z)])
      kwargs in
  model.

Definition convnext_fourier_small (pretrained in_22k : bool) (kwargs : Kwargs)
    : result ConvNeXt.t :=
  let model :=
    ConvNeXt_call.new [3; 3; 27; 3] [96; 192; 384; 768]
      (partial FourierActivation [("degree", VInt 5%Z)])
      kwargs in
  model.

Definition convnext_fourier_base (pretrained in_22k : bool) (kwargs : Kwargs)
    : result ConvNeXt.t :=
  let model :=
    ConvNeXt_call.new [3; 3; 27; 3] [128; 256; 512; 1024]
      (partial FourierActivation [("degree", VInt 5%Z)])
      kwargs in
  model.

Definition convnext_tropical_tiny (pretrained in_22k : bool) (kwargs : Kwargs)
    : result ConvNeXt.t :=
  let model :=
    ConvNeXt_call.new [3; 3; 9; 3] [96; 192; 384; 768]
      (partial TropicalActivation [("degree", VInt 5%Z)])
      kwargs in
  model.

Definition convnext_tropical_small (pretrained in_22k : bool) (kwargs : Kwargs)
    : result ConvNeXt.t :=
  let model :=
    ConvNeXt_call.new [3; 3; 27; 3] [96; 192; 384; 768]
      (partial TropicalActivation [("degree", VInt 5%Z)])
      kwargs in
  model.

Definition convnext_tropical_base (pretrained in_22k : bool) (kwargs : Kwargs)
    : result ConvNeXt.t :=
  let model :=
    ConvNeXt_call.new [3; 3; 27; 3] [128; 256; 512; 1024]
      (partial TropicalActivation [("degree", VInt 5%Z)])
      kwargs in
  model.

Definition convnext_hermite_deg2_tiny (pretrained in_22k : bool) (kwargs : Kwargs)
    : result ConvNeXt.t :=
  let model :=
    ConvNeXt_call.new [3; 3; 9; 3] [96; 192; 384; 768]
      (partial HermiteActivation [("degree", VInt 2%Z)])
      kwargs in
  model.

Definition convnext_fourier_deg1_tiny (pretrained in_22k : bool) (kwargs : Kwargs)
    : result ConvNeXt.t :=
  let model :=
    ConvNeXt_call.new [3; 3; 9; 3] [96; 192; 384; 768]
      (partial FourierActivation [("degree", VInt 1%Z)])
      kwargs in
  model.

Definition convnext_fourier_deg3_tiny (pretrained in_22k : bool) (kwargs : Kwargs)
    : result ConvNeXt.t :=
  let model :=
    ConvNeXt_call.new [3; 3; 9; 3] [96; 192; 384; 768]
      (partial FourierActivation [("degree", VInt 3%Z)])
      kwargs in
  model.

Definition convnext_fourier_deg4_tiny (pretrained in_22k : bool) (kwargs : Kwargs)
    : result ConvNeXt.t :=
  let model :=
    ConvNeXt_call.new [3; 3; 9; 3] [96; 192; 384; 768]
      (partial FourierActivation [("degree", VInt 4%Z)])
      kwargs in
  model.

Definition convnext_fourier_deg6_tiny (pretrained in_22k : bool) (kwargs : Kwargs)
    : result ConvNeXt.t :=
  let model :=
    ConvNeXt_call.new [3; 3; 9; 3] [96; 192; 384; 768]
      (partial FourierActivation [("degree", VInt 6%Z)])
      kwargs in
  model.

Definition convnext_tropical_deg1_tiny (pretrained in_22k : bool) (kwargs : Kwargs)
    : result ConvNeXt.t :=
  let model :=
    ConvNeXt_call.new [3; 3; 9; 3] [96; 192; 384; 768]
      (partial TropicalActivation [("degree", VInt 1%Z)])
      kwargs in
  model.

Definition convnext_tropical_deg3_tiny (pretrained in_22k : bool) (kwargs : Kwargs)
    : result ConvNeXt.t :=
  let model :=
    ConvNeXt_call.new [3; 3; 9; 3] [96; 192; 384; 768]
      (partial TropicalActivation [("degree", VInt 3%Z)])
      kwargs in
  model.

Definition convnext_hermite_clamp_tiny (pretrained in_22k : bool) (kwargs : Kwargs)
    : result ConvNeXt.t :=
  let model :=
    ConvNeXt_call.new [3; 3; 9; 3] [96; 192; 384; 768]
      (partial HermiteActivation [("degree", VInt 3%Z); ("clamp", VBool true)])
      kwargs in
  model.

Definition convnext_tropical_deg6_tiny (pretrained in_22k : bool) (kwargs : Kwargs)
    : result ConvNeXt.t :=
  let model :=
    ConvNeXt_call.new [3; 3; 9; 3] [96; 192; 384; 768]
      (partial TropicalActivation [("degree", VInt 6%Z)])
      kwargs in
  model.

Definition convnext_tropical_deg9_tiny (pretrained in_22k : bool) (kwargs : Kwargs)
    : result ConvNeXt.t :=
  let model :=
    ConvNeXt_call.new [3; 3; 9; 3] [96; 192; 384; 768]
      (partial TropicalActivation [("degree", VInt 9%Z)])
      kwargs in
  model.

Definition convnext_tropical_deg12_tiny (pretrained in_22k : bool) (kwargs : Kwargs)
    : result ConvNeXt.t :=
  let model :=
    ConvNeXt_call.new [3; 3; 9; 3] [96; 192; 384; 768]
      (partial TropicalActivation [("degree", VInt 12%Z)])
      kwargs in
  model.

Definition convnext_hermite_gelu_tiny (pretrained in_22k : bool) (kwargs : Kwargs)
    : result ConvNeXt.t :=
  let model :=
    ConvNeXt_call.new [3; 3; 9; 3] [96; 192; 384; 768]
      (partial HermiteActivation [("degree", VInt 3%Z); ("act_init", VModule GELU)])
      kwargs in
  model.

Definition convnext_fourier_deg6_gelu_tiny (pretrained in_22k : bool) (kwargs : Kwargs)
    : result ConvNeXt.t :=
  let model :=
    ConvNeXt_call.new [3; 3; 9; 3] [96; 192; 384; 768]
      (partial FourierActivation [("degree", VInt 6%Z); ("act_init", VModule GELU)])
      kwargs in
  model.

Definition convnext_tropical_deg12_gelu_tiny (pretrained in_22k : bool) (kwargs : Kwargs)
    : result ConvNeXt.t :=
  let model :=
    ConvNeXt_call.new [3; 3; 9; 3] [96; 192; 384; 768]
      (partial TropicalActivation [("degree", VInt 12%Z); ("act_init", VModule GELU)])
      kwargs in
  model.

Definition convnext_hermite_no_grad_tiny (pretrained in_22k : bool) (kwargs : Kwargs)
    : result ConvNeXt.t :=
  let model :=
    ConvNeXt_call.new [3; 3; 9; 3] [96; 192; 384; 768]
      (partial HermiteActivation [("degree", VInt 3%Z); ("requires_grad", VBool false)])
      kwargs in
  model.

Definition convnext_fourier_deg6_no_grad_tiny (pretrained in_22k : bool) (kwargs : Kwargs)
    : result ConvNeXt.t :=
  let model :=
    ConvNeXt_call.new [3; 3; 9; 3] [96; 192; 384; 768]
      (partial FourierActivation [("degree", VInt 6%Z); ("requires_grad", VBool false)])
      kwargs in
  model.

Definition convnext_tropical_deg12_no_grad_tiny (pretrained in_22k : bool) (kwargs : Kwargs)
    : result ConvNeXt.t :=
  let model :=
    ConvNeXt_call.new [3; 3; 9; 3] [96; 192; 384; 768]
      (partial TropicalActivation [("degree", VInt 12%Z); ("requires_grad", VBool false)])
      kwargs in
  model.

(** ** The module's top-level function definitions and [timm]'s registry *)

Definition ModelFn : Type := bool -> bool -> Kwargs -> result ConvNeXt.t.

Inductive Stmt : Type :=
| Def (decorator_list : list string) (name : string) (fn : ModelFn).

Definition ortho_convnext : list Stmt :=
   [
    Def ["register_model"] "convnext_hermite_tiny" convnext_hermite_tiny;
        Def ["register_model"] "convnext_hermite_small" convnext_hermite_small;
        Def ["register_model"] "convnext_hermite_base" convnext_hermite_base;
        Def ["register_model"] "convnext_fourier_tiny" convnext_fourier_tiny;
        Def ["register_model"] "convnext_fourier_small" convnext_fourier_small;
        Def ["register_model"] "convnext_fourier_base" convnext_fourier_base;
        Def ["register_model"] "convnext_tropical_tiny" convnext_tropical_tiny;
        Def ["register_model"] "convnext_tropical_small" convnext_tropical_small;
        Def ["register_model"] "convnext_tropical_base" convnext_tropical_base;
        Def ["register_model"] "convnext_hermite_deg2_tiny" convnext_hermite_deg2_tiny;
        Def ["register_model"] "convnext_fourier_deg1_tiny" convnext_fourier_deg1_tiny;
        Def ["register_model"] "convnext_fourier_deg3_tiny" convnext_fourier_deg3_tiny;
        Def ["register_model"] "convnext_fourier_deg4_tiny" convnext_fourier_deg4_tiny;
        Def ["register_model"] "convnext_fourier_deg6_tiny" convnext_fourier_deg6_tiny;
        Def ["register_model"] "convnext_tropical_deg1_tiny" convnext_tropical_deg1_tiny;
        Def ["register_model"] "convnext_tropical_deg3_tiny" convnext_tropical_deg3_tiny;
        Def ["register_model"] "convnext_hermite_clamp_tiny" convnext_hermite_clamp_tiny;
        Def ["register_model"] "convnext_tropical_deg6_tiny" convnext_tropical_deg6_tiny;
        Def ["register_model"] "convnext_tropical_deg9_tiny" convnext_tropical_deg9_tiny;
        Def ["register_model"] "convnext_tropical_deg12_tiny" convnext_tropical_deg12_tiny;
        Def ["register_model"] "convnext_hermite_gelu_tiny" convnext_hermite_gelu_tiny;
        Def ["register_model"] "convnext_fourier_deg6_gelu_tiny" convnext_fourier_deg6_gelu_tiny;
        Def ["register_model"] "convnext_tropical_deg12_gelu_tiny" convnext_tropical_deg12_gelu_tiny;
        Def ["register_model"] "convnext_hermite_no_grad_tiny" convnext_hermite_no_grad_tiny;
        Def ["register_model"] "convnext_fourier_deg6_no_grad_tiny" convnext_fourier_deg6_no_grad_tiny;
        Def ["register_model"] "convnext_tropical_deg12_no_grad_tiny" convnext_tropical_deg12_no_grad_tiny   ].

(** [timm.models.registry.register_model]: the function is entered under
    its own name and returned as it is. *)
Definition register_model (name : string) (fn : ModelFn)
    (registry : list (string * ModelFn)) : list (string * ModelFn) :=
  registry ++ [(name, fn)].

(** Importing the module runs its definitions in order. *)
Definition exec_Stmt (registry : list (string * ModelFn)) (s : Stmt)
    : list (string * ModelFn) :=
  match s with
  | Def decorator_list name fn =>
      if existsb (String.eqb "register_model") decorator_list
      then register_model name fn registry
      else registry
  end.

Definition model_registry : list (string * ModelFn) :=
  fold_left exec_Stmt ortho_convnext [].

(** ** [object_detection/mmcv_custom/__init__.py] *)

Module mmcv_custom.

(** The statements of the file: [from .module import name] and the
    assignment to [__all__]. *)
Inductive Stmt : Type :=
| ImportFrom (module : string) (name : string)
| Assign__all__ (value : list string).

Definition __init__ : list Stmt :=
  [ImportFrom "checkpoint" "load_checkpoint";
   ImportFrom "layer_decay_optimizer_constructor"
              "LearningRateDecayOptimizerConstructor";
   ImportFrom "customized_text" "CustomizedTextLoggerHook";
   Assign__all__ ["load_checkpoint";
                  "LearningRateDecayOptimizerConstructor";
                  "CustomizedTextLoggerHook"]].

(** What a name of the package is bound to. *)
Inductive Obj : Type :=
| Submodule (module : string)
| Attr (module : string) (name : string).

Record Namespace : Type := mkNamespace {
  bindings : list (string * Obj);
  __all__ : option (list string)
}.

(** A relative import loads the submodule, which becomes an attribute of
    the package, and binds the imported name. *)
Definition exec_Stmt (ns : Namespace) (s : Stmt) : Namespace :=
  match s with
  | ImportFrom module name =>
      mkNamespace
        (bindings ns ++ [(module, Submodule module); (name, Attr module name)])
        (__all__ ns)
  | Assign__all__ value => mkNamespace (bindings ns) (Some value)
  end.

Definition package : Namespace :=
  fold_left exec_Stmt __init__ (mkNamespace [] None).

Fixpoint lookup (name : string) (l : list (string * Obj)) : option Obj :=
  match l with
  | [] => None
  | (k, v) :: l' => if String.eqb name k then Some v else lookup name l'
  end.

Fixpoint getattrs (ns : Namespace) (names : list string)
    : result (list (string * Obj)) :=
  match names with
  | [] => Ok []
  | name :: names' =>
      match lookup name (bindings ns) with
      | Some v => l <- getattrs ns names' ;; Ok ((name, v) :: l)
      | None => Raise AttributeError
      end
  end.

(** [from mmcv_custom import *]: the names of [__all__] when it is
    defined, else every bound name that does not start with [_]. *)
Definition import_star (ns : Namespace) : result (list (string * Obj)) :=
  match __all__ ns with
  | Some names => getattrs ns names
  | None =>
      Ok (filter (fun kv => negb (String.prefix "_" (fst kv))) (bindings ns))
  end.

End mmcv_custom.

(** * Specification vocabulary *)

Definition eps6 : Q := (1 # 1000000)%Q.

(** The mean and the biased variance over the channel axis of an
    [(N, C, H, W)] tensor, at batch index [n] and position [(h, w)]. *)
Definition channel_mean (x : Tensor) (C n h w : nat) : R :=
  (Rsum C (fun k => elem x [n; k; h; w]) / INR C)%R.

Definition channel_var (x : Tensor) (C n h w : nat) : R :=
  (Rsum C (fun k => (elem x [n; k; h; w] - channel_mean x C n h w) ^ 2)
   / INR C)%R.

(** Layer scale: [gamma * x] when [gamma] is not [None]. *)
Definition layer_scale (gamma : option Tensor) (x : Tensor) : Tensor :=
  match gamma with
  | Some gamma => tmul gamma x
  | None => x
  end.

(** The transformed branch of a block in the order of the description:
    depthwise convolution, permutation to channels-last, layer norm,
    first pointwise layer, activation, second pointwise layer, layer scale,
    permutation back. *)
Definition Block_branch `{Torch} (stride padding groups : nat) (w b : Param)
    (ln : LayerNorm.t) (w1 b1 : Param) (a : ActInst) (w2 b2 : Param)
    (gamma : option Tensor) (x : Tensor) : Tensor :=
  let x := F_conv2d x w b stride padding groups in
  let x := permute [0; 2; 3; 1] x in
  let x := F_layer_norm x (LayerNorm.normalized_shape ln)
             (LayerNorm.weight ln) (LayerNorm.bias ln)
             (Q2R (LayerNorm.eps ln)) in
  let x := F_linear x w1 b1 in
  let x := activation a x in
  let x := F_linear x w2 b2 in
  let x := layer_scale gamma x in
  permute [0; 3; 1; 2] x.

(** The downsampling layers that [ConvNeXt.__init__] builds, before
    [_init_weights] runs. *)
Definition stem_layer (in_chans d0 : nat) : nn_Module :=
  nn_Sequential
    [Conv2d in_chans d0 4 4 0 1;
     a_LayerNorm
       (LayerNorm.mk (ones [d0]) (zeros [d0]) eps6 "channels_first" [d0])].

Definition down_layer (d d' : nat) : nn_Module :=
  nn_Sequential
    [a_LayerNorm
       (LayerNorm.mk (ones [d]) (zeros [d]) eps6 "channels_first" [d]);
     Conv2d d d' 2 2 0 1].

Definition built_block (dim : nat) (lsiv : Q) (act : Callable)
    (b : nn_Module) : Prop :=
  exists dp, Block.__init__ dim dp lsiv act = Ok b.

(** The in-place operations that the weight and the bias of a convolution
    or linear layer have seen. *)
Definition histories (m : nn_Module) : option (list InitOp * list InitOp) :=
  match m with
  | nn_Conv2d _ _ _ _ _ _ w b => Some (history w, history b)
  | nn_Linear _ _ w b => Some (history w, history b)
  | _ => None
  end.

Definition untouched (m : nn_Module) : Prop :=
  forall h, histories m = Some h -> h = ([], []).

Definition initialised_once (m : nn_Module) : Prop :=
  forall h, histories m = Some h ->
            h = ([trunc_normal_ (2 # 100)], [constant_ 0]).

(** A call of [method] on a layer of the model leaves the parameters of
    the layer with the history they had. *)
Definition keeps_parameters (method : St nn_Module unit) (m : ConvNeXt.t)
    : Prop :=
  forall layer,
    In layer (ConvNeXt.modules_ m) ->
    histories (snd (method layer)) = histories layer.

(** The activation module of a block. *)
Definition block_act (b : nn_Module) : option ActInst :=
  match b with
  | a_Block _ _ _ (Activation a) _ _ _ => Some a
  | _ => None
  end.

Fixpoint get (key : string) (kw : list (string * PyVal)) : option PyVal :=
  match kw with
  | [] => None
  | (k, v) :: kw' => if String.eqb key k then Some v else get key kw'
  end.

(** The coefficients of an activation are trained unless it is made with
    [requires_grad=False].  (What the classes of [torchortho] do with the
    keyword is outside this repository.) *)
Definition learnable (a : ActInst) : bool :=
  match get "requires_grad" (act_kwargs a) with
  | Some (VBool false) => false
  | _ => true
  end.

(** The activation family and the degree that a constructor's name
    announces: the number after [_deg], else 3 for Hermite and 5 for
    Fourier and Tropical. *)
Definition name_family (name : string) : option ActClass :=
  if String.prefix "convnext_hermite_" name then Some HermiteActivation
  else if String.prefix "convnext_fourier_" name then Some FourierActivation
  else if String.prefix "convnext_tropical_" name then Some TropicalActivation
  else None.

Definition is_digit (c : ascii) : bool :=
  Nat.leb 48 (nat_of_ascii c) && Nat.leb (nat_of_ascii c) 57.

Fixpoint read_digits (s : string) (acc : Z) : Z :=
  match s with
  | String c s' =>
      if is_digit c
      then read_digits s' (10 * acc + Z.of_nat (nat_of_ascii c - 48))%Z
      else acc
  | EmptyString => acc
  end.

Definition name_degree (name : string) : option Z :=
  match String.index 0 "_deg" name with
  | Some i =>
      Some (read_digits
              (String.substring (i + 4) (String.length name) name) 0%Z)
  | None => None
  end.

Definition main_degree (c : ActClass) : Z :=
  match c with
  | HermiteActivation => 3%Z
  | _ => 5%Z
  end.

Definition expected_degree (name : string) (c : ActClass) : Z :=
  default (main_degree c) (name_degree name).

Definition Def_name (s : Stmt) : string :=
  match s with
  | Def _ name _ => name
  end.

Definition Def_decorators (s : Stmt) : list string :=
  match s with
  | Def decorator_list _ _ => decorator_list
  end.

(** No keyword given: the call [constructor()]. *)
Definition no_kwargs : Kwargs :=
  mkKwargs None None None None None None None None [].

(** A model of the kernel interface, for closed instances of the
    statements below. *)
Definition pass_through : Torch :=
  {| F_conv2d := fun x _ _ _ _ _ => x;
     F_linear := fun x _ _ => x;
     activation := fun _ x => x;
     drop_path_f := fun _ x => x |}.

(** * Further vocabulary: schedules, sizes and counts *)

(** The attributes [drop_path] and [gamma] of a block, and its width. *)
Definition block_drop_path (b : nn_Module) : option nn_Module :=
  match b with
  | a_Block _ _ _ _ _ _ drop_path => Some drop_path
  | _ => None
  end.



(** Entry [k] of [linspace(0, drop_path_rate, total)]. *)
Definition rate_of (dpr : Q) (total k : nat) : Q :=
  (0 + (dpr - 0)
       * (inject_Z (Z.of_nat k) / inject_Z (Z.of_nat (total - 1))))%Q.

Definition ends_with (suffix s : string) : bool :=
  String.eqb
    (String.substring (String.length s - String.length suffix)
                      (String.length suffix) s)
    suffix.

(** The input channels of the stem's convolution and the features of the
    head. *)
Definition stem_in_channels (self : ConvNeXt.t) : option nat :=
  match ConvNeXt.downsample_layers self with
  | nn_Sequential (nn_Conv2d i _ _ _ _ _ _ _ :: _) :: _ => Some i
  | _ => None
  end.

Definition head_features (self : ConvNeXt.t) : option (nat * nat) :=
  match ConvNeXt.head self with
  | nn_Linear i o _ _ => Some (i, o)
  | _ => None
  end.

(** The module with every parameter as the library's constructor left it. *)
Fixpoint skeleton (m : nn_Module) : nn_Module :=
  match m with
  | nn_Conv2d i o k s p g w b =>
      nn_Conv2d i o k s p g (new_param (param_shape w))
                (new_param (param_shape b))
  | nn_Linear i o w b =>
      nn_Linear i o (new_param (param_shape w)) (new_param (param_shape b))
  | nn_Sequential layers => nn_Sequential (map skeleton layers)
  | a_Block dwconv norm pwconv1 act pwconv2 gamma drop_path =>
      a_Block (skeleton dwconv) (skeleton norm) (skeleton pwconv1)
              (skeleton act) (skeleton pwconv2) gamma (skeleton drop_path)
  | _ => m
  end.

(** The histories of the convolution and linear layers of a module, in the
    order of [modules]. *)
Fixpoint all_histories (m : nn_Module) : list (list InitOp * list InitOp) :=
  match m with
  | nn_Conv2d _ _ _ _ _ _ w b => [(history w, history b)]
  | nn_Linear _ _ w b => [(history w, history b)]
  | nn_Sequential layers => flat_map all_histories layers
  | a_Block dwconv norm pwconv1 act pwconv2 _ drop_path =>
      all_histories dwconv ++ all_histories norm ++ all_histories pwconv1
      ++ all_histories act ++ all_histories pwconv2
      ++ all_histories drop_path
  | _ => []
  end.

(** What one run of [_init_weights] adds to the histories of a layer. *)
Definition initialise (h : list InitOp * list InitOp)
    : list InitOp * list InitOp :=
  (fst h ++ [trunc_normal_ (2 # 100)], snd h ++ [constant_ 0]).

(** Every [LayerNorm] inside the module has one of the two formats. *)
Fixpoint formats_ok (m : nn_Module) : bool :=
  match m with
  | a_LayerNorm ln =>
      existsb (String.eqb (LayerNorm.data_format ln))
              ["channels_last"; "channels_first"]
  | nn_Sequential layers => forallb formats_ok layers
  | a_Block dwconv norm pwconv1 act pwconv2 _ drop_path =>
      formats_ok dwconv && formats_ok norm && formats_ok pwconv1
      && formats_ok act && formats_ok pwconv2 && formats_ok drop_path
  | _ => true
  end.

(** [numel] of a shape, and the number of learnable scalars of a module:
    weights and biases of convolutions, linear layers and layer norms, and
    [gamma].  What an activation module learns is inside [torchortho] and
    is not counted. *)
Definition numel (sh : list nat) : Z :=
  fold_right (fun d acc => (Z.of_nat d * acc)%Z) 1%Z sh.

Fixpoint n_params (m : nn_Module) : Z :=
  match m with
  | nn_Conv2d _ _ _ _ _ _ w b =>
      (numel (param_shape w) + numel (param_shape b))%Z
  | nn_Linear _ _ w b => (numel (param_shape w) + numel (param_shape b))%Z
  | nn_LayerNorm _ _ w b => (numel (shape w) + numel (shape b))%Z
  | a_LayerNorm ln =>
      (numel (shape (LayerNorm.weight ln))
       + numel (shape (LayerNorm.bias ln)))%Z
  | nn_Sequential layers =>
      fold_right (fun l acc => (n_params l + acc)%Z) 0%Z layers
  | a_Block dwconv norm pwconv1 act pwconv2 gamma drop_path =>
      (n_params dwconv + n_params norm + n_params pwconv1 + n_params act
       + n_params pwconv2
       + match gamma with
         | Some gamma => numel (shape gamma)
         | None => 0
         end
       + n_params drop_path)%Z
  | _ => 0%Z
  end.

Definition model_n_params (self : ConvNeXt.t) : Z :=
  (fold_right (fun l acc => n_params l + acc) 0
              (ConvNeXt.downsample_layers self)
   + fold_right (fun l acc => n_params l + acc) 0 (ConvNeXt.stages self)
   + n_params (ConvNeXt.norm self) + n_params (ConvNeXt.head self))%Z.

(** The count of one block of width [D]: 8 D^2 + 57 D, and D more for
    [gamma] when layer scale is on. *)
Definition block_n_params (lsiv : Q) (D : nat) : Z :=
  let d := Z.of_nat D in
  (8 * d * d + 57 * d + (if Qgt_bool lsiv 0 then d else 0))%Z.

(** A small configuration, for closed instances of the statements. *)
Definition small_model : result ConvNeXt.t :=
  ConvNeXt.__init__ 3 10 [1; 2; 1; 1] [4; 8; 16; 32] (1 # 10) eps6 1
                    (Class GELU).

(** * Properties *)

(** ** The error monad and list access *)

Lemma bind_Ok (A B : Type) (r : result A) (k : A -> result B) (b : B) :
  bind r k = Ok b -> exists a, r = Ok a /\ k a = Ok b.
Proof. destruct r as [a|e]; simpl; [eauto | discriminate]. Qed.

Lemma comprehension_Forall2 (A : Type) (f : nat -> result A)
    (range : list nat) (l : list A) :
  comprehension f range = Ok l -> Forall2 (fun j a => f j = Ok a) range l.
Proof.
  revert l. induction range as [|j range IH]; simpl; intros l Hl.
  - injection Hl as <-. constructor.
  - apply bind_Ok in Hl. destruct Hl as (a & Ha & Hl).
    apply bind_Ok in Hl. destruct Hl as (l' & Hl' & Hl).
    injection Hl as <-. constructor; auto.
Qed.

Lemma nth_error_last (A : Type) (l : list A) (a d : A) :
  nth_error (a :: l) (length l) = Some (last (a :: l) d).
Proof.
  revert a. induction l as [|b l IH]; intros a; [reflexivity|].
  change (nth_error (b :: l) (length l) = Some (last (b :: l) d)). apply IH.
Qed.

Lemma getitem_last_cons (A : Type) (a : A) (l : list A) (d : A) :
  getitem_last (a :: l) = Ok (last (a :: l) d).
Proof.
  unfold getitem_last, getitem.
  replace (length (a :: l) - 1) with (length l) by (simpl; lia).
  now rewrite (nth_error_last l a d).
Qed.

(** ** Tensors: sums, broadcasting, permutation *)

Lemma Rsum_ext (n : nat) (f g : nat -> R) :
  (forall k, k < n -> f k = g k) -> Rsum n f = Rsum n g.
Proof.
  unfold Rsum. intros Hfg.
  assert (Hs : forall k, In k (seq 0 n) -> f k = g k).
  { intros k Hk. apply in_seq in Hk. apply Hfg. lia. }
  induction (seq 0 n) as [|k l IH]; simpl; [reflexivity|].
  rewrite (Hs k) by (left; reflexivity). rewrite IH; [reflexivity|].
  intros j Hj. apply Hs. right. exact Hj.
Qed.

Lemma in_bounds4 (idx : list nat) (N C H W : nat) :
  in_bounds idx [N; C; H; W] ->
  exists n c h w, idx = [n; c; h; w] /\ n < N /\ c < C /\ h < H /\ w < W.
Proof.
  intros Hb. inversion Hb as [|n ? i1 ? Hn H1]; subst.
  inversion H1 as [|c ? i2 ? Hc H2]; subst.
  inversion H2 as [|h ? i3 ? Hh H3]; subst.
  inversion H3 as [|w ? i4 ? Hw H4]; subst.
  inversion H4; subst. exists n, c, h, w. auto.
Qed.

Lemma if_same (A : Type) (c : bool) (v : A) : (if c then v else v) = v.
Proof. destruct c; reflexivity. Qed.

Lemma stretch_one (a : nat) : (if Nat.eqb a 1 then 1 else a) = a.
Proof. destruct (Nat.eqb_spec a 1); congruence. Qed.

Lemma broadcast_coord (d i : nat) :
  i < d -> (if Nat.eqb d 1 then 0 else i) = i.
Proof. intros Hi. destruct (Nat.eqb_spec d 1); lia. Qed.

Ltac norm_stretch := repeat (rewrite if_same || rewrite stretch_one).

Lemma broadcast_rev_same (s : list nat) : broadcast_rev s s = s.
Proof.
  induction s as [|d s IH]; simpl; [reflexivity|].
  rewrite IH. now destruct (Nat.eqb d 1).
Qed.

Lemma broadcast_shape_same (s : list nat) : broadcast_shape s s = s.
Proof.
  unfold broadcast_shape. now rewrite broadcast_rev_same, rev_involutive.
Qed.

Lemma broadcast_index_same (sh idx : list nat) :
  in_bounds idx sh -> broadcast_index sh idx = idx.
Proof.
  intros Hb. unfold broadcast_index.
  rewrite (Forall2_length Hb), Nat.sub_diag. simpl.
  induction Hb as [|i d idx sh Hi _ IH]; simpl; [reflexivity|].
  rewrite IH. f_equal. destruct (Nat.eqb_spec d 1); lia.
Qed.

(** The sum of two tensors of one shape is the sum of their values. *)
Lemma tadd_same_shape (x dx : Tensor) (idx : list nat) :
  shape dx = shape x -> in_bounds idx (shape x) ->
  shape (tadd x dx) = shape x /\
  elem (tadd x dx) idx = (elem x idx + elem dx idx)%R.
Proof.
  intros Hs Hb. simpl. rewrite Hs. split; [apply broadcast_shape_same|].
  now rewrite (broadcast_index_same Hb).
Qed.

Section Broadcast4.
Variables (N C H W : nat) (f : R -> R -> R) (a b : Tensor).
Variables (n c h w : nat).
Hypotheses (Hn : n < N) (Hc : c < C) (Hh : h < H) (Hw : w < W).

Lemma pointwise_keepdim_shape :
  shape a = [N; C; H; W] -> shape b = [N; 1; H; W] ->
  shape (pointwise f a b) = [N; C; H; W].
Proof.
  intros Ha Hb. simpl. rewrite Ha, Hb. unfold broadcast_shape. simpl.
  now norm_stretch.
Qed.

Lemma pointwise_keepdim_elem :
  shape a = [N; C; H; W] -> shape b = [N; 1; H; W] ->
  elem (pointwise f a b) [n; c; h; w] =
  f (elem a [n; c; h; w]) (elem b [n; 0; h; w]).
Proof.
  intros Ha Hb. simpl. rewrite Ha, Hb. unfold broadcast_index. simpl.
  now rewrite !broadcast_coord by assumption.
Qed.

Lemma pointwise_channel_l_shape :
  shape a = [C; 1; 1] -> shape b = [N; C; H; W] ->
  shape (pointwise f a b) = [N; C; H; W].
Proof.
  intros Ha Hb. simpl. rewrite Ha, Hb. unfold broadcast_shape. simpl.
  now norm_stretch.
Qed.

Lemma pointwise_channel_l_elem :
  shape a = [C; 1; 1] -> shape b = [N; C; H; W] ->
  elem (pointwise f a b) [n; c; h; w] =
  f (elem a [c; 0; 0]) (elem b [n; c; h; w]).
Proof.
  intros Ha Hb. simpl. rewrite Ha, Hb. unfold broadcast_index. simpl.
  now rewrite !broadcast_coord by assumption.
Qed.

Lemma pointwise_channel_r_shape :
  shape a = [N; C; H; W] -> shape b = [C; 1; 1] ->
  shape (pointwise f a b) = [N; C; H; W].
Proof.
  intros Ha Hb. simpl. rewrite Ha, Hb. unfold broadcast_shape. simpl.
  now norm_stretch.
Qed.

Lemma pointwise_channel_r_elem :
  shape a = [N; C; H; W] -> shape b = [C; 1; 1] ->
  elem (pointwise f a b) [n; c; h; w] =
  f (elem a [n; c; h; w]) (elem b [c; 0; 0]).
Proof.
  intros Ha Hb. simpl. rewrite Ha, Hb. unfold broadcast_index. simpl.
  now rewrite !broadcast_coord by assumption.
Qed.
End Broadcast4.

Lemma elem_mean_keepdim_1 (x : Tensor) (N C H W n h w : nat) :
  shape x = [N; C; H; W] ->
  elem (mean_keepdim 1 x) [n; 0; h; w] =
  (Rsum C (fun k => elem x [n; k; h; w]) / INR C)%R.
Proof. intros Hx. simpl. rewrite Hx. reflexivity. Qed.

Lemma shape_mean_keepdim_1 (x : Tensor) (N C H W : nat) :
  shape x = [N; C; H; W] -> shape (mean_keepdim 1 x) = [N; 1; H; W].
Proof. intros Hx. simpl. rewrite Hx. reflexivity. Qed.

Lemma shape_permute_0231 (x : Tensor) (N C H W : nat) :
  shape x = [N; C; H; W] -> shape (permute [0; 2; 3; 1] x) = [N; H; W; C].
Proof. intros Hx. simpl. rewrite Hx. reflexivity. Qed.

Lemma elem_permute_0231 (x : Tensor) (N C H W n h w c : nat) :
  shape x = [N; C; H; W] ->
  elem (permute [0; 2; 3; 1] x) [n; h; w; c] = elem x [n; c; h; w].
Proof. intros Hx. simpl. rewrite Hx. reflexivity. Qed.

Lemma shape_permute_0312 (x : Tensor) (N C H W : nat) :
  shape x = [N; H; W; C] -> shape (permute [0; 3; 1; 2] x) = [N; C; H; W].
Proof. intros Hx. simpl. rewrite Hx. reflexivity. Qed.

Lemma elem_permute_0312 (x : Tensor) (N C H W n h w c : nat) :
  shape x = [N; H; W; C] ->
  elem (permute [0; 3; 1; 2] x) [n; c; h; w] = elem x [n; h; w; c].
Proof. intros Hx. simpl. rewrite Hx. reflexivity. Qed.

(** The two permutations of a block undo each other. *)
Lemma permute_back (x : Tensor) (N C H W : nat) :
  shape x = [N; C; H; W] ->
  teq (permute [0; 3; 1; 2] (permute [0; 2; 3; 1] x)) x.
Proof.
  intros Hx. split.
  - rewrite Hx. apply shape_permute_0312, shape_permute_0231, Hx.
  - intros idx Hin.
    rewrite (shape_permute_0312 _ (shape_permute_0231 _ Hx)) in Hin.
    destruct (in_bounds4 Hin) as (n & c & h & w & -> & _).
    rewrite (elem_permute_0312 _ n h w c (shape_permute_0231 _ Hx)).
    apply elem_permute_0231 with (1 := Hx).
Qed.

Lemma mean_last2_spatial (x : Tensor) (N C H W : nat) :
  shape x = [N; C; H; W] ->
  shape (mean_last2 x) = [N; C] /\
  forall n c,
    elem (mean_last2 x) [n; c] =
    (Rsum H (fun h => Rsum W (fun w => elem x [n; c; h; w]))
     / INR (H * W))%R.
Proof. intros Hx. unfold mean_last2. rewrite Hx. split; reflexivity. Qed.

(** ** LayerNorm *)

Lemma channels_first_elem (x wt bs : Tensor) (eps : Q) (N C H W : nat) :
  shape x = [N; C; H; W] -> shape wt = [C] -> shape bs = [C] ->
  exists y,
    LayerNorm.forward (LayerNorm.mk wt bs eps "channels_first" [C]) x
    = Some y /\
    shape y = [N; C; H; W] /\
    forall n c h w, n < N -> c < C -> h < H -> w < W ->
      elem y [n; c; h; w] =
      (elem wt [c] *
       ((elem x [n; c; h; w] - channel_mean x C n h w)
        / sqrt (channel_var x C n h w + Q2R eps))
       + elem bs [c])%R.
Proof.
  intros Hx Hwt Hbs.
  set (u := mean_keepdim 1 x).
  assert (Hu : shape u = [N; 1; H; W])
    by (apply shape_mean_keepdim_1 with C; exact Hx).
  set (d := tsub x u).
  assert (Hd : shape d = [N; C; H; W])
    by (apply pointwise_keepdim_shape; assumption).
  set (s := mean_keepdim 1 (tmap (fun v => (v ^ 2)%R) d)).
  assert (Hs : shape s = [N; 1; H; W])
    by (apply shape_mean_keepdim_1 with C; exact Hd).
  set (q := tmap sqrt (tmap (fun v => (v + Q2R eps)%R) s)).
  assert (Hq : shape q = [N; 1; H; W]) by exact Hs.
  set (r := tdiv d q).
  assert (Hr : shape r = [N; C; H; W])
    by (apply pointwise_keepdim_shape; assumption).
  assert (Hw1 : shape (index_None2 wt) = [C; 1; 1])
    by (simpl; rewrite Hwt; reflexivity).
  assert (Hb1 : shape (index_None2 bs) = [C; 1; 1])
    by (simpl; rewrite Hbs; reflexivity).
  set (m := tmul (index_None2 wt) r).
  assert (Hm : shape m = [N; C; H; W])
    by (apply pointwise_channel_l_shape; assumption).
  exists (tadd m (index_None2 bs)).
  split; [reflexivity|].
  split; [apply pointwise_channel_r_shape; assumption|].
  intros n c h w Hn Hc Hh Hw.
  assert (Hde : forall k, k < C ->
            elem d [n; k; h; w]
            = (elem x [n; k; h; w] - channel_mean x C n h w)%R).
  { intros k Hk. unfold d, tsub.
    rewrite (pointwise_keepdim_elem Rminus x u Hn Hk Hh Hw Hx Hu).
    unfold u. rewrite (elem_mean_keepdim_1 x n h w Hx). reflexivity. }
  unfold tadd.
  rewrite (pointwise_channel_r_elem Rplus m (index_None2 bs)
             Hn Hc Hh Hw Hm Hb1).
  unfold m, tmul.
  rewrite (pointwise_channel_l_elem Rmult (index_None2 wt) r
             Hn Hc Hh Hw Hw1 Hr).
  unfold r, tdiv.
  rewrite (pointwise_keepdim_elem Rdiv d q Hn Hc Hh Hw Hd Hq).
  rewrite (Hde c Hc).
  assert (Hqe : elem q [n; 0; h; w]
                = sqrt (channel_var x C n h w + Q2R eps)).
  { unfold q.
    change (sqrt (elem s [n; 0; h; w] + Q2R eps)
            = sqrt (channel_var x C n h w + Q2R eps)).
    unfold s.
    rewrite (elem_mean_keepdim_1 (tmap (fun v => (v ^ 2)%R) d) n h w Hd).
    unfold channel_var. do 3 f_equal. apply Rsum_ext. intros k Hk.
    change (elem d [n; k; h; w] ^ 2
            = (elem x [n; k; h; w] - channel_mean x C n h w) ^ 2)%R.
    now rewrite (Hde k Hk). }
  rewrite Hqe. reflexivity.
Qed.

Lemma channels_last_elem (x wt bs : Tensor) (eps : Q) (N C H W : nat) :
  shape x = [N; C; H; W] ->
  exists z,
    LayerNorm.forward (LayerNorm.mk wt bs eps "channels_last" [C])
                      (permute [0; 2; 3; 1] x) = Some z /\
    shape z = [N; H; W; C] /\
    forall n c h w,
      elem z [n; h; w; c] =
      ((elem x [n; c; h; w] - channel_mean x C n h w)
        / sqrt (channel_var x C n h w + Q2R eps) * elem wt [c]
       + elem bs [c])%R.
Proof.
  intros Hx. eexists. split; [reflexivity|].
  split; [simpl; rewrite Hx; reflexivity|].
  intros n c h w. simpl. rewrite Hx. reflexivity.
Qed.

(** C8.  For an input [x] of shape (N, C, H, W) and weight and bias over the
    C channels, the channels_first LayerNorm of [x] is the channels_last
    LayerNorm (the library's [layer_norm] over the last axis) of [x]
    permuted to (N, H, W, C), permuted back to (N, C, H, W), with the same
    weight, bias and eps.  The channels_first value at (n, c, h, w) is
    [weight[c] * (x - mean) / sqrt(var + eps) + bias[c]] with the mean over
    the channel axis and the biased variance. *)
Theorem LayerNorm_layouts_agree (x wt bs : Tensor) (eps : Q) (N C H W : nat) :
  shape x = [N; C; H; W] -> shape wt = [C] -> shape bs = [C] ->
  exists y z,
    LayerNorm.forward (LayerNorm.mk wt bs eps "channels_first" [C]) x
    = Some y /\
    LayerNorm.forward (LayerNorm.mk wt bs eps "channels_last" [C])
                      (permute [0; 2; 3; 1] x) = Some z /\
    teq y (permute [0; 3; 1; 2] z) /\
    forall n c h w, n < N -> c < C -> h < H -> w < W ->
      elem y [n; c; h; w] =
      (elem wt [c] *
       ((elem x [n; c; h; w] - channel_mean x C n h w)
        / sqrt (channel_var x C n h w + Q2R eps))
       + elem bs [c])%R.
Proof.
  intros Hx Hwt Hbs.
  destruct (@channels_first_elem x wt bs eps N C H W Hx Hwt Hbs)
    as (y & Hy & Hsy & Hey).
  destruct (@channels_last_elem x wt bs eps N C H W Hx)
    as (z & Hz & Hsz & Hez).
  exists y, z. repeat split; try assumption.
  - rewrite Hsy. symmetry. apply shape_permute_0312 with (1 := Hsz).
  - intros idx Hin. rewrite Hsy in Hin.
    destruct (in_bounds4 Hin) as (n & c & h & w & -> & Hn & Hc & Hh & Hw).
    rewrite (elem_permute_0312 z n h w c Hsz), Hez, (Hey n c h w Hn Hc Hh Hw).
    ring.
Qed.

Lemma LayerNorm_layouts_agree_witness :
  shape (ones [2; 3; 4; 4]) = [2; 3; 4; 4] /\
  shape (ones [3]) = [3] /\ shape (zeros [3]) = [3] /\
  exists y z,
    LayerNorm.forward
      (LayerNorm.mk (ones [3]) (zeros [3]) eps6 "channels_first" [3])
      (ones [2; 3; 4; 4]) = Some y /\
    LayerNorm.forward
      (LayerNorm.mk (ones [3]) (zeros [3]) eps6 "channels_last" [3])
      (permute [0; 2; 3; 1] (ones [2; 3; 4; 4])) = Some z /\
    teq y (permute [0; 3; 1; 2] z) /\
    forall n c h w, n < 2 -> c < 3 -> h < 4 -> w < 4 ->
      elem y [n; c; h; w] =
      Rplus
        (Rmult (elem (ones [3]) [c])
           (Rdiv (Rminus (elem (ones [2; 3; 4; 4]) [n; c; h; w])
                         (channel_mean (ones [2; 3; 4; 4]) 3 n h w))
                 (sqrt (Rplus (channel_var (ones [2; 3; 4; 4]) 3 n h w)
                              (Q2R eps6)))))
        (elem (zeros [3]) [c]).
Proof.
  split; [reflexivity|]. split; [reflexivity|]. split; [reflexivity|].
  apply (@LayerNorm_layouts_agree (ones [2; 3; 4; 4]) (ones [3]) (zeros [3])
           eps6 2 3 4 4); reflexivity.
Defined.

(** A record whose [data_format] is neither of the two would fall through
    [forward]; the constructor is what rules it out. *)
Remark LayerNorm_forward_falls_through (wt bs x : Tensor) (eps : Q)
    (ns : list nat) :
  LayerNorm.forward (LayerNorm.mk wt bs eps "channels_middle" ns) x = None.
Proof. reflexivity. Qed.

(** C9.  [LayerNorm.__init__] raises [NotImplementedError] exactly when
    [data_format] is neither "channels_last" nor "channels_first", and it
    raises nothing else; a constructed LayerNorm has one of the two formats
    and its [forward] returns a tensor on every input, never [None]. *)
Theorem LayerNorm_init_raises_iff (normalized_shape : nat) (eps : Q)
    (data_format : string) :
  (LayerNorm.__init__ normalized_shape eps data_format
   = Raise NotImplementedError
   <-> data_format <> "channels_last" /\ data_format <> "channels_first") /\
  (forall e, LayerNorm.__init__ normalized_shape eps data_format = Raise e ->
             e = NotImplementedError) /\
  (forall self,
     LayerNorm.__init__ normalized_shape eps data_format = Ok self ->
     (LayerNorm.data_format self = "channels_last"
      \/ LayerNorm.data_format self = "channels_first") /\
     forall x, exists y, LayerNorm.forward self x = Some y).
Proof.
  unfold LayerNorm.__init__. cbn [existsb].
  destruct (String.eqb_spec data_format "channels_last") as [->|Hl];
    [|destruct (String.eqb_spec data_format "channels_first") as [->|Hf]];
    cbn [negb orb].
  - split; [split; [discriminate|intros [Hl _]; now elim Hl]|].
    split; [discriminate|].
    intros self Hs. injection Hs as <-. split; [now left|].
    intros x. eexists. reflexivity.
  - split; [split; [discriminate|intros [_ Hf]; now elim Hf]|].
    split; [discriminate|].
    intros self Hs. injection Hs as <-. split; [now right|].
    intros x. eexists. reflexivity.
  - split; [split; [now split|reflexivity]|].
    split; [intros e He; now injection He as <-|discriminate].
Qed.

(** ** Block *)

(** What [Block.__init__] builds: the layers, their classes and sizes. *)
Lemma Block_init_Ok (dim : nat) (dp lsiv : Q) (act : Callable) :
  Block.__init__ dim dp lsiv act =
  Ok (a_Block (Conv2d dim dim 7 1 3 dim)
        (a_LayerNorm (LayerNorm.mk (ones [dim]) (zeros [dim]) eps6
                                   "channels_last" [dim]))
        (Linear dim (4 * dim))
        (Activation (call act))
        (Linear (4 * dim) dim)
        (if Qgt_bool lsiv 0
         then Some (tmap (fun v => (Q2R lsiv * v)%R) (ones [dim]))
         else None)
        (if Qgt_bool dp 0 then DropPath dp else nn_Identity)).
Proof. reflexivity. Qed.

(** [_init_weights] changes the parameters of a block, not its layers. *)
Lemma Block_init_weights (dim : nat) (dp lsiv : Q) (act : Callable)
    (b : nn_Module) :
  Block.__init__ dim dp lsiv act = Ok b ->
  exists i o k s p g w bi ln i1 o1 w1 b1 i2 o2 w2 b2 gamma drop,
    apply _init_weights b =
    a_Block (nn_Conv2d i o k s p g w bi) (a_LayerNorm ln)
            (nn_Linear i1 o1 w1 b1) (Activation (call act))
            (nn_Linear i2 o2 w2 b2) gamma drop /\
    LayerNorm.data_format ln = "channels_last" /\
    (drop = nn_Identity \/ exists q, drop = DropPath q).
Proof.
  rewrite Block_init_Ok. intros Hb. injection Hb as <-.
  do 19 eexists. split; [reflexivity|]. split; [reflexivity|].
  destruct (Qgt_bool dp 0); [right; eexists|left]; reflexivity.
Qed.

(** C1.  A block is a depthwise convolution, a channels_last LayerNorm, two
    linear layers around an activation, an optional [gamma] and a drop-path
    module.  On every input [x] its forward pass returns
    [x + drop_path(branch x)], where [branch] is the convolution, the
    permutation to channels-last, the layer norm, the first linear layer,
    the activation, the second linear layer, the scaling by [gamma] when
    there is one, and the permutation back, in that order; [drop_path] is
    the identity or the library's [DropPath].  The sum with a tensor of the
    shape of [x] adds to every value of [x], which is not changed. *)
Theorem Block_forward_residual {T : Torch}
    (i o k s p g : nat) (w b : Param) (ln : LayerNorm.t)
    (i1 o1 : nat) (w1 b1 : Param) (a : ActInst)
    (i2 o2 : nat) (w2 b2 : Param) (gamma : option Tensor)
    (drop : nn_Module) (x : Tensor) :
  LayerNorm.data_format ln = "channels_last" ->
  let block := a_Block (nn_Conv2d i o k s p g w b) (a_LayerNorm ln)
                 (nn_Linear i1 o1 w1 b1) (Activation a)
                 (nn_Linear i2 o2 w2 b2) gamma drop in
  let branch := Block_branch s p g w b ln w1 b1 a w2 b2 gamma x in
  __call__ block x = (dx <- __call__ drop branch ;; Ok (tadd x dx)) /\
  (drop = nn_Identity -> __call__ block x = Ok (tadd x branch)) /\
  (forall q, drop = DropPath q ->
             __call__ block x = Ok (tadd x (drop_path_f q branch))) /\
  (forall dx idx,
     shape dx = shape x -> in_bounds idx (shape x) ->
     elem (tadd x dx) idx = (elem x idx + elem dx idx)%R).
Proof.
  intros Hfmt block branch.
  assert (Hcall : __call__ block x
                  = (dx <- __call__ drop branch ;; Ok (tadd x dx))).
  { unfold block. cbn [__call__]. unfold Block.forward. cbn [__call__ bind].
    unfold LayerNorm.forward. rewrite Hfmt.
    cbn [String.eqb Ascii.eqb Bool.eqb bind].
    destruct gamma; reflexivity. }
  split; [exact Hcall|]. split; [|split].
  - intros ->. exact Hcall.
  - intros q ->. exact Hcall.
  - intros dx idx Hs Hin. now apply tadd_same_shape.
Qed.

Lemma Block_forward_residual_witness :
  LayerNorm.data_format
    (LayerNorm.mk (ones [96]) (zeros [96]) eps6 "channels_last" [96])
  = "channels_last" /\
  @__call__ pass_through
    (a_Block (Conv2d 96 96 7 1 3 96)
       (a_LayerNorm
          (LayerNorm.mk (ones [96]) (zeros [96]) eps6 "channels_last" [96]))
       (Linear 96 384)
       (Activation (mkAct HermiteActivation [("degree", VInt 3)]))
       (Linear 384 96) None nn_Identity)
    (ones [1; 96; 56; 56])
  = Ok (tadd (ones [1; 96; 56; 56])
          (permute [0; 3; 1; 2]
             (F_layer_norm (permute [0; 2; 3; 1] (ones [1; 96; 56; 56]))
                [96] (ones [96]) (zeros [96]) (Q2R eps6)))).
Proof.
  split; [reflexivity|].
  apply (@Block_forward_residual pass_through
           96 96 7 1 3 96 (new_param [96; 1; 7; 7]) (new_param [96])
           (LayerNorm.mk (ones [96]) (zeros [96]) eps6 "channels_last" [96])
           96 384 (new_param [384; 96]) (new_param [384])
           (mkAct HermiteActivation [("degree", VInt 3)])
           384 96 (new_param [96; 384]) (new_param [96])
           None nn_Identity (ones [1; 96; 56; 56]) eq_refl);
    reflexivity.
Defined.

(** ** Induction on modules, through the layers of a [nn.Sequential] *)

Lemma nn_Module_induction (P : nn_Module -> Prop) :
  (forall i o k s p g w b, P (nn_Conv2d i o k s p g w b)) ->
  (forall i o w b, P (nn_Linear i o w b)) ->
  (forall ns e w b, P (nn_LayerNorm ns e w b)) ->
  P nn_Identity ->
  (forall layers, Forall P layers -> P (nn_Sequential layers)) ->
  (forall q, P (DropPath q)) ->
  (forall a, P (Activation a)) ->
  (forall ln, P (a_LayerNorm ln)) ->
  (forall dw n p1 a p2 g dp,
     P dw -> P n -> P p1 -> P a -> P p2 -> P dp ->
     P (a_Block dw n p1 a p2 g dp)) ->
  forall m, P m.
Proof.
  intros HConv HLin HLN HId HSeq HDrop HAct HaLN HBlock.
  fix IH 1. intros m. destruct m as [| | | |layers| | | |].
  - apply HConv.
  - apply HLin.
  - apply HLN.
  - apply HId.
  - apply HSeq. induction layers as [|l layers IHl]; constructor.
    + apply IH.
    + exact IHl.
  - apply HDrop.
  - apply HAct.
  - apply HaLN.
  - apply HBlock; apply IH.
Qed.

(** ** ConvNeXt: what the constructor builds *)

Lemma blocks_built (di : nat) (rates : list Q) (g : nat -> nat)
    (lsiv : Q) (act : Callable) (n : nat) (bs : list nn_Module) :
  comprehension
    (fun j => dp <- getitem rates (g j) ;; Block.__init__ di dp lsiv act)
    (seq 0 n) = Ok bs ->
  length bs = n /\ Forall (built_block di lsiv act) bs.
Proof.
  intros Hc. apply comprehension_Forall2 in Hc. split.
  - apply Forall2_length in Hc. rewrite length_seq in Hc. congruence.
  - induction Hc as [|j b js bs' Hj _ IH]; constructor; [|exact IH].
    apply bind_Ok in Hj. destruct Hj as (dp & _ & Hb). exists dp. exact Hb.
Qed.

(** A constructed model: [dims] and [depths] have four entries or more,
    there are four downsampling layers and four stages of [depths[i]]
    blocks of width [dims[i]], every layer went through [_init_weights],
    and the head was scaled afterwards. *)
Lemma ConvNeXt_init_inv ic nc depths dims dpr lsiv his act m :
  ConvNeXt.__init__ ic nc depths dims dpr lsiv his act = Ok m ->
  exists D0 D1 D2 D3 Drest n0 n1 n2 n3 nrest b0 b1 b2 b3,
    dims = D0 :: D1 :: D2 :: D3 :: Drest /\
    depths = n0 :: n1 :: n2 :: n3 :: nrest /\
    (length b0 = n0 /\ Forall (built_block D0 lsiv act) b0) /\
    (length b1 = n1 /\ Forall (built_block D1 lsiv act) b1) /\
    (length b2 = n2 /\ Forall (built_block D2 lsiv act) b2) /\
    (length b3 = n3 /\ Forall (built_block D3 lsiv act) b3) /\
    m = ConvNeXt.mk
          (map (apply _init_weights)
               [stem_layer ic D0; down_layer D0 D1; down_layer D1 D2;
                down_layer D2 D3])
          (map (apply _init_weights)
               [nn_Sequential b0; nn_Sequential b1; nn_Sequential b2;
                nn_Sequential b3])
          (nn_LayerNorm [last dims 0] eps6
                        (ones [last dims 0]) (zeros [last dims 0]))
          (nn_Linear (last dims 0) nc
             (mkParam [nc; last dims 0] [trunc_normal_ (2 # 100); mul_ his])
             (mkParam [nc] [constant_ 0; mul_ his])).
Proof.
  intros Hm. unfold ConvNeXt.__init__ in Hm.
  destruct dims as [|D0 [|D1 [|D2 [|D3 Drest]]]]; try discriminate Hm.
  rewrite (getitem_last_cons D0 (D1 :: D2 :: D3 :: Drest) 0) in Hm.
  destruct depths as [|n0 [|n1 [|n2 [|n3 nrest]]]];
    repeat (simpl in Hm; try discriminate Hm;
            match type of Hm with
            | context [comprehension ?f (seq 0 ?n)] =>
                let b := fresh "b" in
                let Hb := fresh "Hb" in
                destruct (comprehension f (seq 0 n)) as [b|] eqn:Hb
            end).
  simpl in Hm. injection Hm as <-.
  exists D0, D1, D2, D3, Drest, n0, n1, n2, n3, nrest, b, b0, b1, b2.
  pose proof (blocks_built _ _ (fun j => j) _ _ _ Hb) as [? ?].
  pose proof (blocks_built _ _ (fun j => n0 + j) _ _ _ Hb0) as [? ?].
  pose proof (blocks_built _ _ (fun j => n0 + n1 + j) _ _ _ Hb1) as [? ?].
  pose proof (blocks_built _ _ (fun j => n0 + n1 + n2 + j) _ _ _ Hb2)
    as [? ?].
  repeat split; try assumption; reflexivity.
Qed.

(** The constructor returns a model whenever [dims] and [depths] have four
    entries or more; with fewer it raises ([ConvNeXt_init_inv]). *)
Lemma length_linspace (a b : Q) (n : nat) : length (linspace a b n) = n.
Proof. unfold linspace. now rewrite length_map, length_seq. Qed.

Lemma getitem_lt (A : Type) (l : list A) (i : nat) :
  i < length l -> exists a, getitem l i = Ok a.
Proof.
  intros Hi. unfold getitem.
  destruct (nth_error l i) as [a|] eqn:E; [now exists a|].
  apply nth_error_None in E. lia.
Qed.

Lemma blocks_total (di : nat) (rates : list Q) (g : nat -> nat)
    (lsiv : Q) (act : Callable) (n : nat) :
  (forall j, j < n -> g j < length rates) ->
  exists bs,
    comprehension
      (fun j => dp <- getitem rates (g j) ;; Block.__init__ di dp lsiv act)
      (seq 0 n) = Ok bs.
Proof.
  intros Hg.
  assert (Hs : forall j, In j (seq 0 n) -> g j < length rates).
  { intros j Hj. apply in_seq in Hj. apply Hg. lia. }
  induction (seq 0 n) as [|j l IH]; [now exists []|].
  destruct (getitem_lt rates (Hs j (or_introl eq_refl))) as [dp Hdp].
  destruct IH as [bs Hbs]; [intros k Hk; apply Hs; now right|].
  eexists. cbn [comprehension]. rewrite Hdp. cbn [bind].
  rewrite Block_init_Ok. cbn [bind]. rewrite Hbs. reflexivity.
Qed.

Lemma ConvNeXt_init_total ic nc depths dims dpr lsiv his act :
  4 <= length dims -> 4 <= length depths ->
  exists m, ConvNeXt.__init__ ic nc depths dims dpr lsiv his act = Ok m.
Proof.
  intros Hdims Hdepths.
  destruct dims as [|D0 [|D1 [|D2 [|D3 Drest]]]]; try (simpl in Hdims; lia).
  destruct depths as [|n0 [|n1 [|n2 [|n3 nrest]]]];
    try (simpl in Hdepths; lia).
  unfold ConvNeXt.__init__.
  rewrite (getitem_last_cons D0 (D1 :: D2 :: D3 :: Drest) 0).
  simpl.
  repeat match goal with
         | |- context [comprehension ?f (seq 0 ?n)] =>
             match f with
             | (fun j => bind (getitem ?rates (@?g j))
                              (fun dp => Block.__init__ ?D dp _ _)) =>
                 let bs := fresh "bs" in
                 let Hbs := fresh "Hbs" in
                 destruct (@blocks_total D rates g lsiv act n) as [bs Hbs];
                 [intros j Hj; rewrite length_linspace; cbv beta; lia
                 |cbv beta in Hbs; rewrite Hbs; simpl]
             end
         end.
  eexists. reflexivity.
Qed.

(** C3.  In a constructed model there are exactly four downsampling layers
    and four stages; the first downsampling layer is the stem.
    [forward_features] applies the pairs (downsampling layer, stage) in the
    order 0, 1, 2, 3, takes the mean over the last two axes and applies the
    final layer norm over [dims[-1]] channels; [forward] is the head, one
    linear layer from [dims[-1]] to [num_classes], after
    [forward_features]. *)
Theorem ConvNeXt_forward_structure {T : Torch}
    ic nc depths dims dpr lsiv his act m :
  ConvNeXt.__init__ ic nc depths dims dpr lsiv his act = Ok m ->
  exists d0 d1 d2 d3 s0 s1 s2 s3 dim0 dl cw cb ln w b,
    getitem dims 0 = Ok dim0 /\ getitem_last dims = Ok dl /\
    ConvNeXt.downsample_layers m = [d0; d1; d2; d3] /\
    ConvNeXt.stages m = [s0; s1; s2; s3] /\
    d0 = nn_Sequential [nn_Conv2d ic dim0 4 4 0 1 cw cb; a_LayerNorm ln] /\
    ConvNeXt.norm m = nn_LayerNorm [dl] eps6 (ones [dl]) (zeros [dl]) /\
    ConvNeXt.head m = nn_Linear dl nc w b /\
    (forall x,
       ConvNeXt.forward_features m x =
       (x <- __call__ d0 x ;; x <- __call__ s0 x ;;
        x <- __call__ d1 x ;; x <- __call__ s1 x ;;
        x <- __call__ d2 x ;; x <- __call__ s2 x ;;
        x <- __call__ d3 x ;; x <- __call__ s3 x ;;
        Ok (F_layer_norm (mean_last2 x) [dl] (ones [dl]) (zeros [dl])
                         (Q2R eps6)))) /\
    (forall x,
       ConvNeXt.forward m x =
       (y <- ConvNeXt.forward_features m x ;; Ok (F_linear y w b))) /\
    (forall x N C H W,
       shape x = [N; C; H; W] ->
       shape (mean_last2 x) = [N; C] /\
       forall n c,
         elem (mean_last2 x) [n; c] =
         (Rsum H (fun h => Rsum W (fun w => elem x [n; c; h; w]))
          / INR (H * W))%R).
Proof.
  intros Hm. apply ConvNeXt_init_inv in Hm.
  destruct Hm as (D0 & D1 & D2 & D3 & Drest & n0 & n1 & n2 & n3 & nrest
                  & b0 & b1 & b2 & b3 & Hdims & Hdepths
                  & _ & _ & _ & _ & ->).
  subst dims.
  do 15 eexists.
  split; [reflexivity|]. split; [apply getitem_last_cons with (d := 0)|].
  split; [reflexivity|]. split; [reflexivity|]. split; [reflexivity|].
  split; [reflexivity|]. split; [reflexivity|]. split; [|split].
  - intros x. unfold ConvNeXt.forward_features.
    cbn [for_ seq getitem nth_error ConvNeXt.downsample_layers
         ConvNeXt.stages map bind].
    repeat match goal with
           | |- context [bind (__call__ ?m ?t) _] =>
               destruct (__call__ m t) as [?|?]; cbn [bind]
           end; reflexivity.
  - intros x. unfold ConvNeXt.forward. cbn [ConvNeXt.head __call__].
    destruct (ConvNeXt.forward_features _ x); reflexivity.
  - intros x N C H W. apply mean_last2_spatial.
Qed.

(** ** ConvNeXt: initialisation *)

Lemma apply_init_weights_once (m : nn_Module) :
  Forall untouched (modules m) ->
  Forall initialised_once (modules (apply _init_weights m)).
Proof.
  induction m as [i o k s p g w b|i o w b|ns e w b| |layers IH|q|a|ln
                 |dw n p1 a p2 g dp IHdw IHn IHp1 IHa IHp2 IHdp]
    using nn_Module_induction; intros Hm.
  - inversion Hm as [|? ? Hw _]; subst. constructor; [|constructor].
    specialize (Hw _ eq_refl). injection Hw as Hw Hb.
    intros h Hh. simpl in Hh. injection Hh as <-. now rewrite Hw, Hb.
  - inversion Hm as [|? ? Hw _]; subst. constructor; [|constructor].
    specialize (Hw _ eq_refl). injection Hw as Hw Hb.
    intros h Hh. simpl in Hh. injection Hh as <-. now rewrite Hw, Hb.
  - constructor; [intros h Hh; discriminate|constructor].
  - constructor; [intros h Hh; discriminate|constructor].
  - simpl in *. inversion Hm as [|? ? _ Hl]; subst.
    constructor; [intros h Hh; discriminate|].
    induction IH as [|l layers Hl' _ IHl]; simpl in *; [constructor|].
    apply Forall_app in Hl. destruct Hl as [Hl1 Hl2].
    apply Forall_app. split; [apply Hl'; exact Hl1|].
    apply IHl; [|exact Hl2].
    constructor; [intros h Hh; discriminate|exact Hl2].
  - constructor; [intros h Hh; discriminate|constructor].
  - constructor; [intros h Hh; discriminate|constructor].
  - constructor; [intros h Hh; discriminate|constructor].
  - simpl in *. inversion Hm as [|? ? _ Hl]; subst.
    constructor; [intros h Hh; discriminate|].
    repeat (apply Forall_app in Hl; destruct Hl as [? Hl]).
    repeat (apply Forall_app; split); auto.
Qed.

Ltac untouched_leaves :=
  repeat constructor;
  let h := fresh "h" in
  let Hh := fresh "Hh" in
  intros h Hh; simpl in Hh; try discriminate Hh; now injection Hh as <-.

Lemma stem_layer_untouched (ic d : nat) :
  Forall untouched (modules (stem_layer ic d)).
Proof. untouched_leaves. Qed.

Lemma down_layer_untouched (d d' : nat) :
  Forall untouched (modules (down_layer d d')).
Proof. untouched_leaves. Qed.

Lemma built_block_untouched (dim : nat) (lsiv : Q) (act : Callable)
    (b : nn_Module) :
  built_block dim lsiv act b -> Forall untouched (modules b).
Proof.
  intros [dp Hb]. rewrite Block_init_Ok in Hb. injection Hb as <-.
  destruct (Qgt_bool dp 0); untouched_leaves.
Qed.

Lemma stage_untouched (dim : nat) (lsiv : Q) (act : Callable)
    (bs : list nn_Module) :
  Forall (built_block dim lsiv act) bs ->
  Forall untouched (modules (nn_Sequential bs)).
Proof.
  intros Hbs. simpl. constructor; [intros h Hh; discriminate|].
  induction Hbs as [|b bs Hb _ IH]; simpl; [constructor|].
  apply Forall_app. split; [|exact IH].
  eapply built_block_untouched; eassumption.
Qed.

Lemma apply_init_weights_all_once (l : list nn_Module) :
  Forall (fun m => Forall untouched (modules m)) l ->
  Forall initialised_once (flat_map modules (map (apply _init_weights) l)).
Proof.
  induction 1 as [|m l Hm _ IH]; simpl; [constructor|].
  apply Forall_app. split; [|exact IH]. now apply apply_init_weights_once.
Qed.

Lemma init_weights_st_eq (layer : nn_Module) :
  _init_weights_st layer = (Ok tt, _init_weights layer).
Proof. destruct layer; reflexivity. Qed.

(** A loop whose body only reads the object leaves it as it is, and
    returns what the loop over the values returns. *)
Lemma for_st_reads (S X : Type) (body : nat -> X -> St S X)
    (f : nat -> X -> result X) (s : S) (range : list nat) :
  (forall i x, body i x s = (f i x, s)) ->
  forall x, for_st range body x s = (for_ range f x, s).
Proof.
  intros Hbody. induction range as [|i range IH]; intros x; [reflexivity|].
  cbn [for_st for_]. unfold bind_. rewrite Hbody.
  destruct (f i x) as [x'|e]; [apply IH|reflexivity].
Qed.

Lemma forward_features_st_eq {T : Torch} (self : ConvNeXt.t) (x : Tensor) :
  ConvNeXt.forward_features_st x self
  = (ConvNeXt.forward_features self x, self).
Proof.
  unfold ConvNeXt.forward_features_st, ConvNeXt.forward_features.
  unfold bind_ at 1.
  rewrite (@for_st_reads _ _ _
             (fun i x =>
                layer <- getitem (ConvNeXt.downsample_layers self) i ;;
                x <- __call__ layer x ;;
                stage <- getitem (ConvNeXt.stages self) i ;;
                x <- __call__ stage x ;;
                Ok x) self).
  - destruct (for_ _ _ x) as [y|e]; reflexivity.
  - intros i y. unfold bind_, read, call_, ret_.
    destruct (getitem (ConvNeXt.downsample_layers self) i) as [layer|e];
      [|reflexivity]. cbn [bind].
    unfold read. destruct (__call__ layer y) as [y1|e]; [|reflexivity].
    destruct (getitem (ConvNeXt.stages self) i) as [stage|e];
      [|reflexivity]. cbn [bind].
    destruct (__call__ stage y1) as [y2|e]; reflexivity.
Qed.

Lemma forward_st_eq {T : Torch} (self : ConvNeXt.t) (x : Tensor) :
  ConvNeXt.forward_st x self = (ConvNeXt.forward self x, self).
Proof.
  unfold ConvNeXt.forward_st, ConvNeXt.forward. unfold bind_ at 1.
  rewrite forward_features_st_eq.
  destruct (ConvNeXt.forward_features self x) as [y|e]; [|reflexivity].
  unfold bind_, read, call_, ret_. cbn [bind].
  destruct (__call__ (ConvNeXt.head self) y) as [z|e]; reflexivity.
Qed.

(** C4, as amended.  In a constructed model every convolution and linear
    layer of the downsampling layers and of the stages has seen exactly one
    in-place operation on its weight, [trunc_normal_] with std 0.02, and
    one on its bias, [constant_] 0; the head has seen the same two and then
    [mul_] by [head_init_scale] on both.  A call of [forward_features] or
    [forward] returns the model as it was, with the value of the pass.
    [_init_weights], called on a layer of the model, returns and leaves a
    layer without convolution or linear parameters as it was, but
    initialises a convolution or linear layer once more: its weight gets
    one more [trunc_normal_] with std 0.02 and its bias one more
    [constant_] 0. *)
Theorem ConvNeXt_init_once ic nc depths dims dpr lsiv his act m :
  ConvNeXt.__init__ ic nc depths dims dpr lsiv his act = Ok m ->
  Forall initialised_once
    (flat_map modules (ConvNeXt.downsample_layers m)
     ++ flat_map modules (ConvNeXt.stages m) ++ modules (ConvNeXt.norm m)) /\
  (exists i o w b,
     ConvNeXt.head m = nn_Linear i o w b /\
     history w = [trunc_normal_ (2 # 100); mul_ his] /\
     history b = [constant_ 0; mul_ his]) /\
  (forall (T : Torch) x,
     ConvNeXt.forward_features_st x m = (ConvNeXt.forward_features m x, m) /\
     ConvNeXt.forward_st x m = (ConvNeXt.forward m x, m)) /\
  (forall layer,
     In layer (ConvNeXt.modules_ m) ->
     exists layer',
       _init_weights_st layer = (Ok tt, layer') /\
       match histories layer with
       | Some (hw, hb) =>
           histories layer'
           = Some (hw ++ [trunc_normal_ (2 # 100)], hb ++ [constant_ 0])
       | None => layer' = layer
       end).
Proof.
  intros Hm. apply ConvNeXt_init_inv in Hm.
  destruct Hm as (D0 & D1 & D2 & D3 & Drest & n0 & n1 & n2 & n3 & nrest
                  & b0 & b1 & b2 & b3 & Hdims & Hdepths
                  & [_ H0] & [_ H1] & [_ H2] & [_ H3] & ->).
  split; [|split; [|split]].
  - cbn [ConvNeXt.downsample_layers ConvNeXt.stages ConvNeXt.norm].
    apply Forall_app. split; [|apply Forall_app; split].
    + apply apply_init_weights_all_once.
      apply Forall_cons; [apply stem_layer_untouched|].
      repeat (apply Forall_cons; [apply down_layer_untouched|]).
      apply Forall_nil.
    + apply apply_init_weights_all_once.
      repeat (apply Forall_cons; [eapply stage_untouched; eassumption|]).
      apply Forall_nil.
    + constructor; [intros h Hh; discriminate|constructor].
  - do 4 eexists. cbn [ConvNeXt.head]. repeat split.
  - intros T x. split; [apply forward_features_st_eq|apply forward_st_eq].
  - intros layer _. exists (_init_weights layer).
    split; [apply init_weights_st_eq|].
    destruct layer; reflexivity.
Qed.

Lemma ConvNeXt_forward_structure_witness :
  exists m,
    ConvNeXt.__init__ 3 1000 [3; 3; 9; 3] [96; 192; 384; 768] 0 eps6 1
                      (Class GELU) = Ok m /\
    exists d0 d1 d2 d3 s0 s1 s2 s3 dim0 dl cw cb ln w b,
      getitem [96; 192; 384; 768] 0 = Ok dim0 /\
      getitem_last [96; 192; 384; 768] = Ok dl /\
      ConvNeXt.downsample_layers m = [d0; d1; d2; d3] /\
      ConvNeXt.stages m = [s0; s1; s2; s3] /\
      d0 = nn_Sequential [nn_Conv2d 3 dim0 4 4 0 1 cw cb; a_LayerNorm ln] /\
      ConvNeXt.norm m = nn_LayerNorm [dl] eps6 (ones [dl]) (zeros [dl]) /\
      ConvNeXt.head m = nn_Linear dl 1000 w b /\
      (forall x,
         @ConvNeXt.forward_features pass_through m x =
         (x <- @__call__ pass_through d0 x ;;
          x <- @__call__ pass_through s0 x ;;
          x <- @__call__ pass_through d1 x ;;
          x <- @__call__ pass_through s1 x ;;
          x <- @__call__ pass_through d2 x ;;
          x <- @__call__ pass_through s2 x ;;
          x <- @__call__ pass_through d3 x ;;
          x <- @__call__ pass_through s3 x ;;
          Ok (F_layer_norm (mean_last2 x) [dl] (ones [dl]) (zeros [dl])
                           (Q2R eps6)))) /\
      (forall x,
         @ConvNeXt.forward pass_through m x =
         (y <- @ConvNeXt.forward_features pass_through m x ;;
          Ok (@F_linear pass_through y w b))) /\
      (forall x N C H W,
         shape x = [N; C; H; W] ->
         shape (mean_last2 x) = [N; C] /\
         forall n c,
           elem (mean_last2 x) [n; c] =
           Rdiv (Rsum H (fun h => Rsum W (fun w => elem x [n; c; h; w])))
                (INR (H * W))).
Proof.
  eexists. split; [reflexivity|].
  apply (@ConvNeXt_forward_structure pass_through 3 1000 [3; 3; 9; 3]
           [96; 192; 384; 768] 0%Q eps6 1%Q (Class GELU)).
  reflexivity.
Defined.

Lemma ConvNeXt_init_once_witness :
  exists m,
    ConvNeXt.__init__ 3 1000 [3; 3; 9; 3] [96; 192; 384; 768] 0 eps6 1
                      (Class GELU) = Ok m /\
    Forall initialised_once
      (flat_map modules (ConvNeXt.downsample_layers m)
       ++ flat_map modules (ConvNeXt.stages m)
       ++ modules (ConvNeXt.norm m)) /\
    (exists i o w b,
       ConvNeXt.head m = nn_Linear i o w b /\
       history w = [trunc_normal_ (2 # 100); mul_ 1] /\
       history b = [constant_ 0; mul_ 1]) /\
    (forall (T : Torch) x,
       ConvNeXt.forward_features_st x m
       = (ConvNeXt.forward_features m x, m) /\
       ConvNeXt.forward_st x m = (ConvNeXt.forward m x, m)) /\
    (forall layer,
       In layer (ConvNeXt.modules_ m) ->
       exists layer',
         _init_weights_st layer = (Ok tt, layer') /\
         match histories layer with
         | Some (hw, hb) =>
             histories layer'
             = Some (hw ++ [trunc_normal_ (2 # 100)], hb ++ [constant_ 0])
         | None => layer' = layer
         end).
Proof.
  eexists. split; [reflexivity|].
  apply (@ConvNeXt_init_once 3 1000 [3; 3; 9; 3] [96; 192; 384; 768]
           0%Q eps6 1%Q (Class GELU)).
  reflexivity.
Defined.

(** C4, the claim as the description has it, fails at its last sentence:
    [_init_weights] is a method other than the constructor, and called on
    the head of a constructed model it initialises the head a second
    time. *)
Lemma ConvNeXt_init_once_counterexample :
  exists m head',
    ConvNeXt.__init__ 3 10 [1; 2; 1; 1] [4; 8; 16; 32] (1 # 10) eps6 1
                      (Class GELU) = Ok m /\
    In (ConvNeXt.head m) (ConvNeXt.modules_ m) /\
    _init_weights_st (ConvNeXt.head m) = (Ok tt, head') /\
    histories (ConvNeXt.head m)
    = Some ([trunc_normal_ (2 # 100); mul_ 1], [constant_ 0; mul_ 1]) /\
    histories head'
    = Some ([trunc_normal_ (2 # 100); mul_ 1; trunc_normal_ (2 # 100)],
            [constant_ 0; mul_ 1; constant_ 0]) /\
    ~ keeps_parameters _init_weights_st m.
Proof.
  eexists. eexists. split; [reflexivity|].
  match goal with
  | |- In ?h (ConvNeXt.modules_ ?m) /\ _ =>
      assert (Hin : In h (ConvNeXt.modules_ m))
  end.
  { unfold ConvNeXt.modules_. do 3 (apply in_or_app; right).
    left. reflexivity. }
  split; [exact Hin|]. split; [reflexivity|].
  split; [reflexivity|]. split; [reflexivity|].
  intros Hkeep. specialize (Hkeep _ Hin).
  vm_compute in Hkeep. discriminate Hkeep.
Qed.

(** ** The registered constructors *)

Lemma model_registry_eq :
  model_registry =
    [("convnext_hermite_tiny", convnext_hermite_tiny);
     ("convnext_hermite_small", convnext_hermite_small);
     ("convnext_hermite_base", convnext_hermite_base);
     ("convnext_fourier_tiny", convnext_fourier_tiny);
     ("convnext_fourier_small", convnext_fourier_small);
     ("convnext_fourier_base", convnext_fourier_base);
     ("convnext_tropical_tiny", convnext_tropical_tiny);
     ("convnext_tropical_small", convnext_tropical_small);
     ("convnext_tropical_base", convnext_tropical_base);
     ("convnext_hermite_deg2_tiny", convnext_hermite_deg2_tiny);
     ("convnext_fourier_deg1_tiny", convnext_fourier_deg1_tiny);
     ("convnext_fourier_deg3_tiny", convnext_fourier_deg3_tiny);
     ("convnext_fourier_deg4_tiny", convnext_fourier_deg4_tiny);
     ("convnext_fourier_deg6_tiny", convnext_fourier_deg6_tiny);
     ("convnext_tropical_deg1_tiny", convnext_tropical_deg1_tiny);
     ("convnext_tropical_deg3_tiny", convnext_tropical_deg3_tiny);
     ("convnext_hermite_clamp_tiny", convnext_hermite_clamp_tiny);
     ("convnext_tropical_deg6_tiny", convnext_tropical_deg6_tiny);
     ("convnext_tropical_deg9_tiny", convnext_tropical_deg9_tiny);
     ("convnext_tropical_deg12_tiny", convnext_tropical_deg12_tiny);
     ("convnext_hermite_gelu_tiny", convnext_hermite_gelu_tiny);
     ("convnext_fourier_deg6_gelu_tiny", convnext_fourier_deg6_gelu_tiny);
     ("convnext_tropical_deg12_gelu_tiny", convnext_tropical_deg12_gelu_tiny);
     ("convnext_hermite_no_grad_tiny", convnext_hermite_no_grad_tiny);
     ("convnext_fourier_deg6_no_grad_tiny", convnext_fourier_deg6_no_grad_tiny);
     ("convnext_tropical_deg12_no_grad_tiny", convnext_tropical_deg12_no_grad_tiny)].
Proof. reflexivity. Qed.

Lemma ConvNeXt_blocks_act ic nc depths dims dpr lsiv his act m :
  ConvNeXt.__init__ ic nc depths dims dpr lsiv his act = Ok m ->
  length (ConvNeXt.blocks m) = list_sum (firstn 4 depths) /\
  Forall (fun b => block_act b = Some (call act)) (ConvNeXt.blocks m).
Proof.
  intros Hm. apply ConvNeXt_init_inv in Hm.
  destruct Hm as (D0 & D1 & D2 & D3 & Drest & n0 & n1 & n2 & n3 & nrest
                  & b0 & b1 & b2 & b3 & Hdims & Hdepths
                  & [L0 H0] & [L1 H1] & [L2 H2] & [L3 H3] & ->).
  assert (Hact : forall dim bs,
            Forall (built_block dim lsiv act) bs ->
            Forall (fun b => block_act b = Some (call act))
                   (map (apply _init_weights) bs)).
  { intros dim bs Hbs.
    induction Hbs as [|b bs [dp Hb] _ IH]; simpl; constructor; [|exact IH].
    rewrite Block_init_Ok in Hb. injection Hb as <-. reflexivity. }
  unfold ConvNeXt.blocks.
  cbn [ConvNeXt.stages map flat_map apply _init_weights].
  rewrite app_nil_r. split.
  - rewrite !length_app, !length_map, Hdepths. simpl. lia.
  - repeat (apply Forall_app; split); eapply Hact; eassumption.
Qed.

(** The call [ConvNeXt(depths=.., dims=.., act=.., **kwargs)] that every
    constructor makes: when it returns, [__init__] ran with the caller's
    keywords and the defaults. *)
Lemma new_Ok depths dims act kwargs m :
  ConvNeXt_call.new depths dims act kwargs = Ok m ->
  ConvNeXt.__init__
    (default 3 (kw_in_chans kwargs)) (default 1000 (kw_num_classes kwargs))
    depths dims (default 0%Q (kw_drop_path_rate kwargs))
    (default (1 # 1000000)%Q (kw_layer_scale_init_value kwargs))
    (default 1%Q (kw_head_init_scale kwargs)) act
  = Ok m.
Proof.
  unfold ConvNeXt_call.new.
  destruct (kw_depths kwargs), (kw_dims kwargs), (kw_act kwargs);
    try discriminate.
  destruct (ConvNeXt_call.binds_again kwargs); [discriminate|]. exact (fun H => H).
Qed.

Lemma new_blocks_act depths dims act kwargs m :
  ConvNeXt_call.new depths dims act kwargs = Ok m ->
  length (ConvNeXt.blocks m) = list_sum (firstn 4 depths) /\
  Forall (fun b => block_act b = Some (call act)) (ConvNeXt.blocks m).
Proof.
  intros Hm. apply new_Ok in Hm. revert Hm. apply ConvNeXt_blocks_act.
Qed.

Ltac registry_cases Hin :=
  rewrite model_registry_eq in Hin; cbn [In] in Hin;
  repeat (destruct Hin as [Hin|Hin]; [injection Hin as <- <-|]);
  [..|contradiction Hin].

Ltac unfold_constructor Hm :=
  match type of Hm with
  | ?f _ _ _ = _ => unfold f in Hm; cbv zeta in Hm
  end.

(** A registered constructor returns a model unless the caller's keywords
    bind again what the constructor's call binds. *)
Lemma registered_constructor_returns (name : string) (fn : ModelFn) :
  In (name, fn) model_registry ->
  forall pretrained in_22k kwargs,
    kw_depths kwargs = None -> kw_dims kwargs = None ->
    kw_act kwargs = None -> ConvNeXt_call.binds_again kwargs = false ->
    exists m, fn pretrained in_22k kwargs = Ok m.
Proof.
  intros Hin pretrained in_22k kwargs Hdepths Hdims Hact Hothers.
  registry_cases Hin;
    (match goal with
     | |- exists m, ?f _ _ _ = _ => unfold f; cbv zeta
     end;
     unfold ConvNeXt_call.new; rewrite Hdepths, Hdims, Hact, Hothers;
     apply ConvNeXt_init_total; simpl; lia).
Qed.

Example expected_degree_main :
  expected_degree "convnext_hermite_tiny" HermiteActivation = 3%Z /\
  expected_degree "convnext_fourier_base" FourierActivation = 5%Z /\
  expected_degree "convnext_tropical_small" TropicalActivation = 5%Z /\
  expected_degree "convnext_tropical_deg12_gelu_tiny" TropicalActivation
  = 12%Z.
Proof. repeat split. Qed.

(** C2, as amended.  Every registered constructor has a name that starts
    with [convnext_hermite_], [convnext_fourier_] or [convnext_tropical_],
    and in every model it builds each block's activation is an instance of
    the class of that family, HermiteActivation, FourierActivation or
    TropicalActivation, made with the degree the name announces (the number
    after [_deg], else 3 for Hermite and 5 for Fourier and Tropical); the
    model has blocks.  The activation is made with [requires_grad=False],
    so not learnable, by the three constructors whose name ends in
    [_no_grad_tiny], and without that keyword, so learnable, by the
    others. *)
Theorem registered_activation (name : string) (fn : ModelFn) :
  In (name, fn) model_registry ->
  forall pretrained in_22k kwargs m,
    fn pretrained in_22k kwargs = Ok m ->
    map fst (filter (fun e => ends_with "_no_grad_tiny" (fst e))
                    model_registry)
    = ["convnext_hermite_no_grad_tiny";
       "convnext_fourier_deg6_no_grad_tiny";
       "convnext_tropical_deg12_no_grad_tiny"] /\
    exists c,
      name_family name = Some c /\ c <> GELU /\
      ConvNeXt.blocks m <> [] /\
      Forall (fun b => exists a,
                block_act b = Some a /\ act_class a = c /\
                get "degree" (act_kwargs a)
                = Some (VInt (expected_degree name c)) /\
                get "requires_grad" (act_kwargs a)
                = (if ends_with "_no_grad_tiny" name
                   then Some (VBool false) else None) /\
                learnable a = negb (ends_with "_no_grad_tiny" name))
             (ConvNeXt.blocks m).
Proof.
  intros Hin pretrained in_22k kwargs m Hm.
  split; [rewrite model_registry_eq; reflexivity|].
  registry_cases Hin;
    (unfold_constructor Hm; apply new_blocks_act in Hm;
     destruct Hm as [Hlen Hall];
     eexists; split; [reflexivity|]; split; [discriminate|]; split;
     [intros E; rewrite E in Hlen; discriminate Hlen|];
     eapply Forall_impl; [|exact Hall];
     intros b Hb; eexists; split; [exact Hb|repeat split; reflexivity]).
Qed.

Lemma registered_activation_witness :
  In ("convnext_fourier_deg6_tiny", convnext_fourier_deg6_tiny)
     model_registry /\
  exists m,
    convnext_fourier_deg6_tiny false false no_kwargs = Ok m /\
    map fst (filter (fun e => ends_with "_no_grad_tiny" (fst e))
                    model_registry)
    = ["convnext_hermite_no_grad_tiny";
       "convnext_fourier_deg6_no_grad_tiny";
       "convnext_tropical_deg12_no_grad_tiny"] /\
    exists c,
      name_family "convnext_fourier_deg6_tiny" = Some c /\ c <> GELU /\
      ConvNeXt.blocks m <> [] /\
      Forall (fun b => exists a,
                block_act b = Some a /\ act_class a = c /\
                get "degree" (act_kwargs a)
                = Some (VInt (expected_degree "convnext_fourier_deg6_tiny" c))
                /\
                get "requires_grad" (act_kwargs a)
                = (if ends_with "_no_grad_tiny" "convnext_fourier_deg6_tiny"
                   then Some (VBool false) else None) /\
                learnable a
                = negb (ends_with "_no_grad_tiny"
                                  "convnext_fourier_deg6_tiny"))
             (ConvNeXt.blocks m).
Proof.
  assert (Hin : In ("convnext_fourier_deg6_tiny", convnext_fourier_deg6_tiny)
                   model_registry).
  { rewrite model_registry_eq. cbn [In]. do 13 right. left. reflexivity. }
  split; [exact Hin|].
  eexists. split; [reflexivity|].
  apply (@registered_activation "convnext_fourier_deg6_tiny"
           convnext_fourier_deg6_tiny Hin false false no_kwargs).
  reflexivity.
Defined.

(** C2, the claim as the description has it, fails: the registered
    constructor [convnext_hermite_no_grad_tiny], called without keywords,
    builds a model in which every block's activation is
    [HermiteActivation(degree=3, requires_grad=False)]: it is of the
    family and degree of the name, and it is not learnable. *)
Lemma registered_activation_counterexample :
  In ("convnext_hermite_no_grad_tiny", convnext_hermite_no_grad_tiny)
     model_registry /\
  exists m,
    convnext_hermite_no_grad_tiny false false no_kwargs = Ok m /\
    ConvNeXt.blocks m <> [] /\
    Forall (fun b =>
              block_act b
              = Some (mkAct HermiteActivation
                            [("degree", VInt 3);
                             ("requires_grad", VBool false)]))
           (ConvNeXt.blocks m) /\
    ~ Forall (fun b => exists a, block_act b = Some a /\ learnable a = true)
             (ConvNeXt.blocks m).
Proof.
  split.
  { rewrite model_registry_eq. cbn [In]. do 23 right. left. reflexivity. }
  destruct (convnext_hermite_no_grad_tiny false false no_kwargs)
    as [m|e] eqn:Hm; [|vm_compute in Hm; discriminate Hm].
  exists m. split; [reflexivity|].
  unfold_constructor Hm. apply new_blocks_act in Hm.
  destruct Hm as [Hlen Hall]. cbn [call] in Hall.
  split; [intros E; rewrite E in Hlen; discriminate Hlen|].
  split; [exact Hall|].
  intros Hl. destruct (ConvNeXt.blocks m) as [|b bs]; [discriminate Hlen|].
  inversion Hall as [|? ? Hb _]; subst.
  inversion Hl as [|? ? [a [Ha La]] _]; subst.
  rewrite Hb in Ha. injection Ha as <-. discriminate La.
Qed.



(** C6.  The module defines 26 constructor functions, from
    [convnext_hermite_tiny] to [convnext_tropical_deg12_no_grad_tiny]; each
    has [register_model] as its decorator and is entered in the registry
    under its own name, once; and each returns the model that its call of
    [ConvNeXt] constructs, or raises what that call raises. *)
Theorem all_constructors_registered :
  length ortho_convnext = 26 /\
  hd_error (map Def_name ortho_convnext) = Some "convnext_hermite_tiny" /\
  last (map Def_name ortho_convnext) ""
  = "convnext_tropical_deg12_no_grad_tiny" /\
  Forall (fun s => Def_decorators s = ["register_model"]) ortho_convnext /\
  map fst model_registry = map Def_name ortho_convnext /\
  NoDup (map fst model_registry) /\
  Forall (fun s => match s with
                   | Def _ name fn => In (name, fn) model_registry
                   end) ortho_convnext /\
  forall name fn,
    In (name, fn) model_registry ->
    exists depths dims act,
      forall pretrained in_22k kwargs,
        fn pretrained in_22k kwargs
        = ConvNeXt_call.new depths dims act kwargs.
Proof.
  split; [reflexivity|]. split; [reflexivity|]. split; [reflexivity|].
  split; [repeat constructor|]. split; [reflexivity|].
  split.
  { rewrite model_registry_eq. cbn [map fst].
    repeat (constructor;
            [cbn [In]; intros Hin;
             repeat (destruct Hin as [Hin|Hin]; [discriminate Hin|]);
             exact Hin|]).
    constructor. }
  split.
  { rewrite model_registry_eq. unfold ortho_convnext.
    repeat (constructor; [cbn [In]; tauto|]). constructor. }
  intros name fn Hin.
  registry_cases Hin; do 3 eexists; intros pretrained in_22k kwargs;
    reflexivity.
Qed.

(** C10.  For every registered constructor, two calls that differ only in
    [pretrained] or [in_22k] give the same result: the same model, or the
    same exception. *)
Theorem flags_have_no_effect (name : string) (fn : ModelFn) :
  In (name, fn) model_registry ->
  forall pretrained in_22k pretrained' in_22k' kwargs,
    fn pretrained in_22k kwargs = fn pretrained' in_22k' kwargs.
Proof.
  intros Hin pretrained in_22k pretrained' in_22k' kwargs.
  registry_cases Hin; reflexivity.
Qed.

Lemma flags_have_no_effect_witness :
  In ("convnext_hermite_tiny", convnext_hermite_tiny) model_registry /\
  convnext_hermite_tiny false false no_kwargs
  = convnext_hermite_tiny true true no_kwargs.
Proof.
  assert (Hin : In ("convnext_hermite_tiny", convnext_hermite_tiny)
                   model_registry).
  { rewrite model_registry_eq. cbn [In]. left. reflexivity. }
  split; [exact Hin|].
  exact (@flags_have_no_effect "convnext_hermite_tiny" convnext_hermite_tiny
           Hin false false true true no_kwargs).
Defined.

(** ** mmcv_custom *)

(** C7.  [__all__] of the package is the list of the three names
    [load_checkpoint], [LearningRateDecayOptimizerConstructor] and
    [CustomizedTextLoggerHook], without repetition; a star import gives
    exactly these, each bound to the attribute of that name of its own
    submodule: [checkpoint], [layer_decay_optimizer_constructor] and
    [customized_text]. *)
Theorem mmcv_custom_public_interface :
  mmcv_custom.__all__ mmcv_custom.package
  = Some ["load_checkpoint"; "LearningRateDecayOptimizerConstructor";
          "CustomizedTextLoggerHook"] /\
  mmcv_custom.import_star mmcv_custom.package
  = Ok [("load_checkpoint", mmcv_custom.Attr "checkpoint" "load_checkpoint");
        ("LearningRateDecayOptimizerConstructor",
         mmcv_custom.Attr "layer_decay_optimizer_constructor"
                          "LearningRateDecayOptimizerConstructor");
        ("CustomizedTextLoggerHook",
         mmcv_custom.Attr "customized_text" "CustomizedTextLoggerHook")] /\
  (forall names,
     mmcv_custom.__all__ mmcv_custom.package = Some names ->
     length names = 3 /\ NoDup names) /\
  (forall name module attr,
     In (name, mmcv_custom.Attr module attr)
        (mmcv_custom.bindings mmcv_custom.package) ->
     attr = name /\
     exists names,
       mmcv_custom.__all__ mmcv_custom.package = Some names /\ In name names).
Proof.
  split; [reflexivity|]. split; [reflexivity|]. split.
  - intros names Hn. injection Hn as <-. split; [reflexivity|].
    repeat (constructor;
            [cbn [In]; intros Hin;
             repeat (destruct Hin as [Hin|Hin]; [discriminate Hin|]);
             exact Hin|]).
    constructor.
  - intros name module attr Hin. cbn in Hin.
    repeat (destruct Hin as [Hin|Hin];
            [first [discriminate Hin
                   |injection Hin as <- <- <-;
                    split; [reflexivity|];
                    eexists; split; [reflexivity|]; cbn [In]; tauto]|]).
    contradiction Hin.
Qed.

(** * Further properties *)

(** ** Construction: what raises, and the sizes of what is built *)

(** X1.  With fewer than four entries in [dims] the constructor raises
    [IndexError], whatever the other arguments are: the downsampling loop
    reads [dims[i + 1]] up to [dims[3]] before any stage is built.  (The
    constructors of the library's layers are taken to return.) *)
Theorem ConvNeXt_init_short_dims ic nc depths dims dpr lsiv his act :
  length dims < 4 ->
  ConvNeXt.__init__ ic nc depths dims dpr lsiv his act = Raise IndexError.
Proof.
  intros Hd.
  destruct dims as [|D0 [|D1 [|D2 [|D3 Drest]]]]; try reflexivity.
  simpl in Hd. lia.
Qed.

Lemma ConvNeXt_init_short_dims_witness :
  length [96; 192; 384] < 4 /\
  ConvNeXt.__init__ 3 1000 [3; 3; 9; 3] [96; 192; 384] 0 eps6 1 (Class GELU)
  = Raise IndexError.
Proof.
  split; [simpl; lia|].
  apply (@ConvNeXt_init_short_dims 3 1000 [3; 3; 9; 3] [96; 192; 384]
           0%Q eps6 1%Q (Class GELU)).
  simpl. lia.
Defined.

Lemma short_dims_raise ic nc depths dims dpr lsiv his act :
  length dims < 4 ->
  ConvNeXt.__init__ ic nc depths dims dpr lsiv his act = Raise IndexError.
Proof.
  intros Hd.
  destruct dims as [|D0 [|D1 [|D2 [|D3 Drest]]]]; try reflexivity.
  simpl in Hd. lia.
Qed.

Ltac build_stages :=
  repeat match goal with
         | |- context [comprehension ?f (seq 0 ?n)] =>
             match f with
             | (fun j => bind (getitem ?rates (@?g j))
                              (fun dp => Block.__init__ ?D dp ?lsiv ?act)) =>
                 let bs := fresh "bs" in
                 let Hbs := fresh "Hbs" in
                 destruct (@blocks_total D rates g lsiv act n) as [bs Hbs];
                 [intros j Hj; rewrite length_linspace; cbv beta; lia
                 |cbv beta in Hbs; rewrite Hbs; simpl]
             end
         end.

(** X2.  For positive [in_chans] and widths, the constructor returns a
    model exactly when [dims] and [depths] both have four entries or more,
    and when it raises, it raises [IndexError].  (The constructors of the
    library's layers and of the activation are taken to return.) *)
Theorem ConvNeXt_init_returns_iff ic nc depths dims dpr lsiv his act :
  0 < ic -> Forall (fun d => 0 < d) dims ->
  ((exists m, ConvNeXt.__init__ ic nc depths dims dpr lsiv his act = Ok m)
   <-> 4 <= length dims /\ 4 <= length depths) /\
  (forall e, ConvNeXt.__init__ ic nc depths dims dpr lsiv his act = Raise e ->
             e = IndexError).
Proof.
  intros _ _. split.
  - split.
    + intros [m Hm]. apply ConvNeXt_init_inv in Hm.
      destruct Hm as (D0 & D1 & D2 & D3 & Drest & n0 & n1 & n2 & n3 & nrest
                      & b0 & b1 & b2 & b3 & -> & -> & _).
      simpl. lia.
    + intros [Hd Hn]. now apply ConvNeXt_init_total.
  - intros e He.
    destruct (Nat.lt_ge_cases (length dims) 4) as [Hd|Hd].
    { rewrite short_dims_raise in He by exact Hd. congruence. }
    destruct (Nat.lt_ge_cases (length depths) 4) as [Hn|Hn].
    2:{ destruct (@ConvNeXt_init_total ic nc depths dims dpr lsiv his act
                    Hd Hn) as [m Hm]. congruence. }
    destruct dims as [|D0 [|D1 [|D2 [|D3 Drest]]]]; try (simpl in Hd; lia).
    unfold ConvNeXt.__init__ in He.
    rewrite (getitem_last_cons D0 (D1 :: D2 :: D3 :: Drest) 0) in He.
    revert He.
    destruct depths as [|n0 [|n1 [|n2 [|n3 nrest]]]];
      try (simpl in Hn; lia); simpl; build_stages; congruence.
Qed.

Lemma ConvNeXt_init_returns_iff_witness :
  0 < 3 /\ Forall (fun d => 0 < d) [96; 192; 384; 768] /\
  ((exists m, ConvNeXt.__init__ 3 1000 [3; 3] [96; 192; 384; 768] 0 eps6 1
                                (Class GELU) = Ok m)
   <-> 4 <= length [96; 192; 384; 768] /\ 4 <= length [3; 3]) /\
  (forall e, ConvNeXt.__init__ 3 1000 [3; 3] [96; 192; 384; 768] 0 eps6 1
                               (Class GELU) = Raise e ->
             e = IndexError).
Proof.
  assert (H3 : 0 < 3) by lia.
  assert (Hd : Forall (fun d => 0 < d) [96; 192; 384; 768])
    by (repeat constructor; lia).
  split; [exact H3|]. split; [exact Hd|].
  exact (@ConvNeXt_init_returns_iff 3 1000 [3; 3] [96; 192; 384; 768]
           0%Q eps6 1%Q (Class GELU) H3 Hd).
Defined.

Lemma ConvNeXt_init_sizes ic nc depths dims dpr lsiv his act m :
  ConvNeXt.__init__ ic nc depths dims dpr lsiv his act = Ok m ->
  stem_in_channels m = Some ic /\
  head_features m = Some (last dims 0, nc).
Proof.
  intros Hm. apply ConvNeXt_init_inv in Hm.
  destruct Hm as (D0 & D1 & D2 & D3 & Drest & n0 & n1 & n2 & n3 & nrest
                  & b0 & b1 & b2 & b3 & Hd & Hn & _ & _ & _ & _ & ->).
  split; reflexivity.
Qed.

Lemma new_sizes depths dims act kwargs m :
  ConvNeXt_call.new depths dims act kwargs = Ok m ->
  stem_in_channels m = Some (default 3 (kw_in_chans kwargs)) /\
  head_features m
  = Some (last dims 0, default 1000 (kw_num_classes kwargs)) /\
  length (ConvNeXt.blocks m) = list_sum (firstn 4 depths).
Proof.
  intros Hm. split; [|split].
  - apply new_Ok in Hm. now apply ConvNeXt_init_sizes in Hm.
  - apply new_Ok in Hm. now apply ConvNeXt_init_sizes in Hm.
  - now apply new_blocks_act in Hm.
Qed.

Lemma In_model_registry_tiny :
  In ("convnext_hermite_tiny", convnext_hermite_tiny) model_registry.
Proof. rewrite model_registry_eq. cbn [In]. left. reflexivity. Qed.

(** X3.  A registered constructor raises [TypeError] exactly when the
    caller's keywords bind again a parameter that the constructor's call
    of [ConvNeXt] binds itself: [depths], [dims] or [act], which it writes
    out, or [self], the object; with none of the four it returns a model.
    (The constructors of the library's layers and of the activation are
    taken to return.) *)
Theorem registered_constructor_keywords (name : string) (fn : ModelFn) :
  In (name, fn) model_registry ->
  forall pretrained in_22k kwargs,
    (fn pretrained in_22k kwargs = Raise TypeError <->
     ~ (kw_depths kwargs = None /\ kw_dims kwargs = None
        /\ kw_act kwargs = None
        /\ forall k, In k (kw_others kwargs) ->
                     ~ In k ["self"; "depths"; "dims"; "act"])) /\
    ((exists m, fn pretrained in_22k kwargs = Ok m) <->
     kw_depths kwargs = None /\ kw_dims kwargs = None
     /\ kw_act kwargs = None
     /\ forall k, In k (kw_others kwargs) ->
                  ~ In k ["self"; "depths"; "dims"; "act"]).
Proof.
  intros Hin pretrained in_22k kwargs.
  set (fresh_names := forall k, In k (kw_others kwargs) ->
                                ~ In k ["self"; "depths"; "dims"; "act"]).
  assert (Hothers : ConvNeXt_call.binds_again kwargs = false <-> fresh_names).
  { unfold ConvNeXt_call.binds_again, fresh_names. split.
    - intros Hb k Hk Hbound.
      assert (E : existsb (fun k => existsb (String.eqb k) ConvNeXt_call.bound_by_call)
                          (kw_others kwargs) = true).
      { apply existsb_exists. exists k. split; [exact Hk|].
        apply existsb_exists. exists k. split; [exact Hbound|].
        apply String.eqb_refl. }
      rewrite E in Hb. discriminate Hb.
    - intros Hf.
      destruct (existsb (fun k => existsb (String.eqb k) ConvNeXt_call.bound_by_call)
                        (kw_others kwargs)) eqn:E; [|reflexivity].
      apply existsb_exists in E. destruct E as (k & Hk & E).
      apply existsb_exists in E. destruct E as (k' & Hk' & E).
      apply String.eqb_eq in E. subst k'. destruct (Hf k Hk Hk'). }
  assert (Hret : kw_depths kwargs = None /\ kw_dims kwargs = None
                 /\ kw_act kwargs = None /\ fresh_names ->
                 exists m, fn pretrained in_22k kwargs = Ok m).
  { intros (H1 & H2 & H3 & H4). apply Hothers in H4.
    now apply (@registered_constructor_returns name fn Hin). }
  assert (Herr : (kw_depths kwargs = None /\ kw_dims kwargs = None
                  /\ kw_act kwargs = None /\ fresh_names)
                 \/ fn pretrained in_22k kwargs = Raise TypeError).
  { clear Hret.
    destruct (ConvNeXt_call.binds_again kwargs) eqn:Hb;
      [|assert (Hf : fresh_names) by now apply Hothers];
      registry_cases Hin;
      (match goal with
       | |- _ \/ ?f _ _ _ = _ => unfold f; cbv zeta
       end;
       unfold ConvNeXt_call.new; rewrite Hb;
       destruct (kw_depths kwargs), (kw_dims kwargs), (kw_act kwargs);
       auto). }
  split; split.
  - intros He Hnone. destruct (Hret Hnone) as [m Hm]. congruence.
  - intros Hsome. destruct Herr as [Hnone|He]; [contradiction|exact He].
  - intros [m Hm]. destruct Herr as [Hnone|He]; [exact Hnone|congruence].
  - exact Hret.
Qed.

Lemma registered_constructor_keywords_witness :
  In ("convnext_hermite_tiny", convnext_hermite_tiny) model_registry /\
  convnext_hermite_tiny false false
    (mkKwargs None None None None None None None None ["self"])
  = Raise TypeError.
Proof.
  split; [exact In_model_registry_tiny|].
  apply (@registered_constructor_keywords "convnext_hermite_tiny"
           convnext_hermite_tiny In_model_registry_tiny false false
           (mkKwargs None None None None None None None None ["self"])).
  intros (_ & _ & _ & H). apply (H "self"); cbn [In kw_others]; auto.
Defined.

(** X4.  In every model of a registered constructor the stem reads
    [in_chans] channels (3 unless given), the head maps 768 features, or
    1024 for a [_base] constructor, to [num_classes] (1000 unless given),
    and there are 18 blocks for a [_tiny] constructor and 36 otherwise. *)
Theorem registered_sizes (name : string) (fn : ModelFn) :
  In (name, fn) model_registry ->
  forall pretrained in_22k kwargs m,
    fn pretrained in_22k kwargs = Ok m ->
    stem_in_channels m = Some (default 3 (kw_in_chans kwargs)) /\
    head_features m
    = Some (if ends_with "_base" name then 1024 else 768,
            default 1000 (kw_num_classes kwargs)) /\
    length (ConvNeXt.blocks m) = (if ends_with "_tiny" name then 18 else 36).
Proof.
  intros Hin pretrained in_22k kwargs m Hm.
  registry_cases Hin;
    (unfold_constructor Hm; apply new_sizes in Hm;
     destruct Hm as (H1 & H2 & H3);
     split; [exact H1|split]; [rewrite H2|rewrite H3];
     vm_compute; reflexivity).
Qed.

Lemma registered_sizes_witness :
  In ("convnext_hermite_tiny", convnext_hermite_tiny) model_registry /\
  exists m,
    convnext_hermite_tiny false false no_kwargs = Ok m /\
    stem_in_channels m = Some (default 3 (kw_in_chans no_kwargs)) /\
    head_features m
    = Some (if ends_with "_base" "convnext_hermite_tiny" then 1024 else 768,
            default 1000 (kw_num_classes no_kwargs)) /\
    length (ConvNeXt.blocks m)
    = (if ends_with "_tiny" "convnext_hermite_tiny" then 18 else 36).
Proof.
  split; [exact In_model_registry_tiny|].
  eexists. split; [reflexivity|].
  apply (@registered_sizes "convnext_hermite_tiny" convnext_hermite_tiny
           In_model_registry_tiny false false no_kwargs).
  reflexivity.
Defined.

(** ** The stochastic-depth schedule and layer scale *)

Lemma getitem_Ok (A : Type) (l : list A) (i : nat) (a : A) :
  getitem l i = Ok a -> nth_error l i = Some a.
Proof.
  unfold getitem. destruct (nth_error l i); [|discriminate].
  now intros H; injection H as ->.
Qed.

Lemma Forall2_seq_nth (A : Type) (P : nat -> A -> Prop) (a n : nat)
    (l : list A) :
  Forall2 P (seq a n) l ->
  forall j x, nth_error l j = Some x -> P (a + j) x.
Proof.
  revert a l. induction n as [|n IH]; intros a l HF j x Hj; simpl in HF.
  - inversion HF; subst. destruct j; discriminate.
  - inversion HF as [|? y ? l' Hy Hl]; subst.
    destruct j as [|j]; simpl in Hj.
    + injection Hj as <-. now rewrite Nat.add_0_r.
    + replace (a + S j) with (S a + j) by lia. now apply (IH (S a) l').
Qed.

Lemma blocks_built_at (D : nat) (rates : list Q) (g : nat -> nat)
    (lsiv : Q) (act : Callable) (n : nat) (bs : list nn_Module) :
  comprehension
    (fun j => dp <- getitem rates (g j) ;; Block.__init__ D dp lsiv act)
    (seq 0 n) = Ok bs ->
  forall j b, nth_error bs j = Some b ->
    exists dp, nth_error rates (g j) = Some dp /\
               Block.__init__ D dp lsiv act = Ok b.
Proof.
  intros Hc j b Hj. apply comprehension_Forall2 in Hc.
  pose proof (@Forall2_seq_nth _ _ _ _ _ Hc _ _ Hj) as Hb.
  cbn beta in Hb. simpl Nat.add in Hb.
  apply bind_Ok in Hb. destruct Hb as (dp & Hdp & Hb).
  exists dp. split; [now apply getitem_Ok|exact Hb].
Qed.

(** Block [k] of a constructed model, counted through the stages, was
    built with entry [k] of the rates. *)
Lemma ConvNeXt_init_schedule ic nc depths dims dpr lsiv his act m :
  ConvNeXt.__init__ ic nc depths dims dpr lsiv his act = Ok m ->
  exists bs,
    ConvNeXt.blocks m = map (apply _init_weights) bs /\
    length bs = list_sum (firstn 4 depths) /\
    forall k b, nth_error bs k = Some b ->
      exists D dp,
        In D (firstn 4 dims) /\
        nth_error (linspace 0 dpr (list_sum depths)) k = Some dp /\
        Block.__init__ D dp lsiv act = Ok b.
Proof.
  intros Hm. unfold ConvNeXt.__init__ in Hm.
  destruct dims as [|D0 [|D1 [|D2 [|D3 Drest]]]]; try discriminate Hm.
  rewrite (getitem_last_cons D0 (D1 :: D2 :: D3 :: Drest) 0) in Hm.
  destruct depths as [|n0 [|n1 [|n2 [|n3 nrest]]]];
    repeat (simpl in Hm; try discriminate Hm;
            match type of Hm with
            | context [comprehension ?f (seq 0 ?n)] =>
                let b := fresh "b" in
                let Hb := fresh "Hb" in
                destruct (comprehension f (seq 0 n)) as [b|] eqn:Hb
            end).
  simpl in Hm. injection Hm as <-.
  set (rates := linspace 0 dpr (n0 + (n1 + (n2 + (n3 + list_sum nrest)))))
    in *.
  pose proof (blocks_built _ _ (fun j => j) _ _ _ Hb) as [L0 _].
  pose proof (blocks_built _ _ (fun j => n0 + j) _ _ _ Hb0) as [L1 _].
  pose proof (blocks_built _ _ (fun j => n0 + n1 + j) _ _ _ Hb1) as [L2 _].
  pose proof (blocks_built _ _ (fun j => n0 + n1 + n2 + j) _ _ _ Hb2)
    as [L3 _].
  pose proof (blocks_built_at _ _ (fun j => j) _ _ _ Hb) as A0.
  pose proof (blocks_built_at _ _ (fun j => n0 + j) _ _ _ Hb0) as A1.
  pose proof (blocks_built_at _ _ (fun j => n0 + n1 + j) _ _ _ Hb1) as A2.
  pose proof (blocks_built_at _ _ (fun j => n0 + n1 + n2 + j) _ _ _ Hb2)
    as A3.
  cbv beta in *.
  exists (b ++ b0 ++ b1 ++ b2). split; [|split].
  - unfold ConvNeXt.blocks.
    cbn [ConvNeXt.stages map flat_map apply _init_weights].
    now rewrite app_nil_r, !map_app.
  - rewrite !length_app. simpl. lia.
  - intros k blk Hk. cbn [firstn In list_sum].
    destruct (Nat.lt_ge_cases k (length b)) as [Hlt|Hge].
    { rewrite nth_error_app1 in Hk by exact Hlt.
      destruct (A0 _ _ Hk) as (dp & ? & ?). exists D0, dp. tauto. }
    rewrite nth_error_app2 in Hk by exact Hge.
    destruct (Nat.lt_ge_cases (k - length b) (length b0)) as [Hlt|Hge0].
    { rewrite nth_error_app1 in Hk by exact Hlt.
      destruct (A1 _ _ Hk) as (dp & Hr & ?). exists D1, dp.
      replace (n0 + (k - length b)) with k in Hr by lia. tauto. }
    rewrite nth_error_app2 in Hk by exact Hge0.
    destruct (Nat.lt_ge_cases (k - length b - length b0) (length b1))
      as [Hlt|Hge1].
    { rewrite nth_error_app1 in Hk by exact Hlt.
      destruct (A2 _ _ Hk) as (dp & Hr & ?). exists D2, dp.
      replace (n0 + n1 + (k - length b - length b0)) with k in Hr by lia.
      tauto. }
    rewrite nth_error_app2 in Hk by exact Hge1.
    destruct (A3 _ _ Hk) as (dp & Hr & ?). exists D3, dp.
    replace (n0 + n1 + n2 + (k - length b - length b0 - length b1))
      with k in Hr by lia.
    tauto.
Qed.

Lemma nth_error_linspace (dpr : Q) (n k : nat) (r : Q) :
  nth_error (linspace 0 dpr n) k = Some r -> k < n /\ r = rate_of dpr n k.
Proof.
  intros Hr.
  assert (Hk : k < n).
  { rewrite <- (length_linspace 0 dpr n). apply nth_error_Some. congruence. }
  split; [exact Hk|].
  unfold linspace in Hr.
  rewrite nth_error_map, nth_error_seq in Hr.
  destruct (Nat.ltb_spec k n) as [_|Hge]; [|lia].
  simpl in Hr. now injection Hr as <-.
Qed.

Lemma block_drop_path_init (D : nat) (dp lsiv : Q) (act : Callable)
    (b : nn_Module) :
  Block.__init__ D dp lsiv act = Ok b ->
  block_drop_path (apply _init_weights b)
  = Some (if Qgt_bool dp 0 then DropPath dp else nn_Identity).
Proof.
  rewrite Block_init_Ok. intros Hb. injection Hb as <-.
  cbn. now destruct (Qgt_bool dp 0).
Qed.

(** The drop-path module of block [k] of a constructed model. *)
Lemma block_drop_path_at ic nc depths dims dpr lsiv his act m k b :
  ConvNeXt.__init__ ic nc depths dims dpr lsiv his act = Ok m ->
  nth_error (ConvNeXt.blocks m) k = Some b ->
  k < list_sum depths /\
  block_drop_path b
  = Some (if Qgt_bool (rate_of dpr (list_sum depths) k) 0
          then DropPath (rate_of dpr (list_sum depths) k)
          else nn_Identity).
Proof.
  intros Hm Hk.
  destruct (ConvNeXt_init_schedule _ _ _ _ _ _ _ _ Hm)
    as (bs & Hbs & Hlen & Hat).
  rewrite Hbs, nth_error_map in Hk.
  destruct (nth_error bs k) as [b'|] eqn:Hb'; [|discriminate].
  injection Hk as <-.
  destruct (Hat _ _ Hb') as (D & dp & _ & Hr & Hb).
  apply nth_error_linspace in Hr. destruct Hr as [Hlt ->].
  split; [exact Hlt|]. eapply block_drop_path_init; eassumption.
Qed.

Lemma inject_Z_nat_pos (k : nat) : 0 < k -> (0 < inject_Z (Z.of_nat k))%Q.
Proof. intros Hk. unfold Qlt. simpl. lia. Qed.

Lemma inject_Z_nat_nonneg (k : nat) : (0 <= inject_Z (Z.of_nat k))%Q.
Proof. unfold Qle. simpl. lia. Qed.

Lemma fraction_nonneg (k n : nat) :
  (0 <= inject_Z (Z.of_nat k) / inject_Z (Z.of_nat n))%Q.
Proof.
  destruct n as [|n].
  - unfold Qdiv, Qinv. simpl. rewrite Qmult_0_r. apply Qle_refl.
  - apply Qle_shift_div_l; [apply inject_Z_nat_pos; lia|].
    rewrite Qmult_0_l. apply inject_Z_nat_nonneg.
Qed.

Lemma rate_of_eq (dpr : Q) (n k : nat) :
  (rate_of dpr n k
   == dpr * (inject_Z (Z.of_nat k) / inject_Z (Z.of_nat (n - 1))))%Q.
Proof. unfold rate_of. ring. Qed.

Lemma Qgt_bool_false (r : Q) : (r <= 0)%Q -> Qgt_bool r 0 = false.
Proof.
  intros Hr. unfold Qgt_bool. apply negb_false_iff. now apply Qle_bool_iff.
Qed.


Lemma rate_nonpos (dpr : Q) (n k : nat) :
  (dpr <= 0)%Q -> (rate_of dpr n k <= 0)%Q.
Proof.
  intros Hd. rewrite rate_of_eq.
  rewrite <- (Qmult_0_l (inject_Z (Z.of_nat k)
                         / inject_Z (Z.of_nat (n - 1)))).
  apply Qmult_le_compat_r; [exact Hd|apply fraction_nonneg].
Qed.

Lemma rate_first (dpr : Q) (n : nat) : (rate_of dpr n 0 == 0)%Q.
Proof. rewrite rate_of_eq. unfold Qdiv. simpl. ring. Qed.

(** X5.  A constructed model has [depths[0] + .. + depths[3]] blocks, and
    block [k], counted through the stages, has as [drop_path] the module
    for entry [k] of [linspace(0, drop_path_rate, sum(depths))]: a
    [DropPath] with that rate when it is positive, else [nn.Identity]. *)
Theorem drop_path_schedule ic nc depths dims dpr lsiv his act m :
  ConvNeXt.__init__ ic nc depths dims dpr lsiv his act = Ok m ->
  length (ConvNeXt.blocks m) = list_sum (firstn 4 depths) /\
  forall k b,
    nth_error (ConvNeXt.blocks m) k = Some b ->
    k < list_sum depths /\
    block_drop_path b
    = Some (if Qgt_bool (rate_of dpr (list_sum depths) k) 0
            then DropPath (rate_of dpr (list_sum depths) k)
            else nn_Identity).
Proof.
  intros Hm. split.
  - destruct (ConvNeXt_init_schedule _ _ _ _ _ _ _ _ Hm)
      as (bs & Hbs & Hlen & _).
    now rewrite Hbs, length_map.
  - intros k b Hk. eapply block_drop_path_at; eassumption.
Qed.

Lemma drop_path_schedule_witness :
  exists m,
    small_model = Ok m /\
    length (ConvNeXt.blocks m) = list_sum (firstn 4 [1; 2; 1; 1]) /\
    forall k b,
      nth_error (ConvNeXt.blocks m) k = Some b ->
      k < list_sum [1; 2; 1; 1] /\
      block_drop_path b
      = Some (if Qgt_bool (rate_of (1 # 10) (list_sum [1; 2; 1; 1]) k) 0
              then DropPath (rate_of (1 # 10) (list_sum [1; 2; 1; 1]) k)
              else nn_Identity).
Proof.
  eexists. split; [reflexivity|].
  apply (@drop_path_schedule 3 10 [1; 2; 1; 1] [4; 8; 16; 32] (1 # 10)%Q
           eps6 1%Q (Class GELU)).
  reflexivity.
Defined.

(** X6.  With [drop_path_rate <= 0], as by default, no block of a
    constructed model has a [DropPath]: every [drop_path] is
    [nn.Identity]. *)
Theorem no_drop_path_without_rate ic nc depths dims dpr lsiv his act m :
  ConvNeXt.__init__ ic nc depths dims dpr lsiv his act = Ok m ->
  (dpr <= 0)%Q ->
  Forall (fun b => block_drop_path b = Some nn_Identity) (ConvNeXt.blocks m).
Proof.
  intros Hm Hd. apply Forall_forall. intros b Hin.
  apply In_nth_error in Hin. destruct Hin as [k Hk].
  destruct (@block_drop_path_at _ _ _ _ _ _ _ _ _ _ _ Hm Hk) as [_ ->].
  rewrite Qgt_bool_false; [reflexivity|]. now apply rate_nonpos.
Qed.

Lemma no_drop_path_without_rate_witness :
  exists m,
    ConvNeXt.__init__ 3 10 [1; 2; 1; 1] [4; 8; 16; 32] 0 eps6 1 (Class GELU)
    = Ok m /\
    (0 <= 0)%Q /\
    Forall (fun b => block_drop_path b = Some nn_Identity)
           (ConvNeXt.blocks m).
Proof.
  eexists. split; [reflexivity|].
  assert (H0 : (0 <= 0)%Q) by apply Qle_refl.
  split; [exact H0|].
  apply (@no_drop_path_without_rate 3 10 [1; 2; 1; 1] [4; 8; 16; 32] 0%Q
           eps6 1%Q (Class GELU)); [reflexivity|exact H0].
Defined.

(** X7.  Whatever [drop_path_rate] is, the first block of a constructed
    model has [nn.Identity] as [drop_path]: the first entry of
    [linspace(0, drop_path_rate, sum(depths))] is the start value 0, and
    [0 > 0.0] is false.  So a model never has a [DropPath] in its first
    block. *)
Theorem first_block_without_drop_path ic nc depths dims dpr lsiv his act m :
  ConvNeXt.__init__ ic nc depths dims dpr lsiv his act = Ok m ->
  forall b,
    nth_error (ConvNeXt.blocks m) 0 = Some b ->
    block_drop_path b = Some nn_Identity.
Proof.
  intros Hm b Hb.
  destruct (@block_drop_path_at _ _ _ _ _ _ _ _ _ _ _ Hm Hb) as [_ ->].
  rewrite Qgt_bool_false; [reflexivity|].
  rewrite rate_first. apply Qle_refl.
Qed.

Lemma first_block_without_drop_path_witness :
  exists m b,
    small_model = Ok m /\
    nth_error (ConvNeXt.blocks m) 0 = Some b /\
    block_drop_path b = Some nn_Identity.
Proof.
  eexists. eexists. split; [reflexivity|]. split; [reflexivity|].
  eapply (@first_block_without_drop_path 3 10 [1; 2; 1; 1] [4; 8; 16; 32]
            (1 # 10)%Q eps6 1%Q (Class GELU)); reflexivity.
Defined.


Section Broadcast_last.
Variables (N H W C : nat) (f : R -> R -> R) (g y : Tensor).
Variables (n h w c : nat).
Hypotheses (Hn : n < N) (Hh : h < H) (Hw : w < W) (Hc : c < C).

End Broadcast_last.



(** ** Initialisation keeps the architecture *)

(** X9.  [apply(_init_weights)] changes nothing of a module but the
    histories of its convolution and linear parameters: the layers, their
    sizes, the layer norms, [gamma], the activations and the drop-path
    modules stay as they are, and every weight gets one more
    [trunc_normal_] and every bias one more [constant_], each time it
    runs. *)
Theorem init_weights_keeps_structure (m : nn_Module) :
  skeleton (apply _init_weights m) = skeleton m /\
  all_histories (apply _init_weights m) = map initialise (all_histories m).
Proof.
  induction m as [i o k s p g w b|i o w b|ns e w b| |layers IH|q|a|ln
                 |dw n p1 a p2 g dp IHdw IHn IHp1 IHa IHp2 IHdp]
    using nn_Module_induction; try (split; reflexivity).
  - cbn [apply _init_weights skeleton all_histories]. split.
    + f_equal. rewrite map_map. induction IH as [|l ls [Hl _] _ IHl];
        [reflexivity|]. cbn [map]. now rewrite Hl, IHl.
    + induction IH as [|l ls [_ Hl] _ IHl]; [reflexivity|].
      cbn [map flat_map]. now rewrite map_app, Hl, IHl.
  - destruct IHdw as [S1 H1], IHn as [S2 H2], IHp1 as [S3 H3],
      IHa as [S4 H4], IHp2 as [S5 H5], IHdp as [S6 H6].
    cbn [apply _init_weights skeleton all_histories]. split.
    + now rewrite S1, S2, S3, S4, S5, S6.
    + now rewrite !map_app, H1, H2, H3, H4, H5, H6.
Qed.

(** ** The forward pass of a constructed model returns *)

Lemma formats_ok_init_weights (m : nn_Module) :
  formats_ok (apply _init_weights m) = formats_ok m.
Proof.
  induction m as [i o k s p g w b|i o w b|ns e w b| |layers IH|q|a|ln
                 |dw n p1 a p2 g dp IHdw IHn IHp1 IHa IHp2 IHdp]
    using nn_Module_induction; try reflexivity.
  - cbn [apply _init_weights formats_ok].
    induction IH as [|l ls Hl _ IHl]; [reflexivity|].
    cbn [map forallb]. now rewrite Hl, IHl.
  - cbn [apply _init_weights formats_ok].
    now rewrite IHdw, IHn, IHp1, IHa, IHp2, IHdp.
Qed.

(** A module whose layer norms have one of the two formats returns a
    tensor on every input. *)
Lemma call_returns {T : Torch} (m : nn_Module) :
  formats_ok m = true -> forall x, exists y, __call__ m x = Ok y.
Proof.
  induction m as [i o k s p g w b|i o w b|ns e w b| |layers IH|q|a|ln
                 |dw n p1 a p2 g dp IHdw IHn IHp1 IHa IHp2 IHdp]
    using nn_Module_induction; intros Hok x;
    try (eexists; reflexivity).
  - cbn [__call__]. cbn [formats_ok] in Hok. revert x.
    induction IH as [|l ls Hl _ IHl]; intros x; [eexists; reflexivity|].
    cbn [forallb] in Hok. apply andb_true_iff in Hok.
    destruct Hok as [Hl1 Hl2].
    destruct (Hl Hl1 x) as [y Hy]. rewrite Hy. cbn [bind]. now apply IHl.
  - cbn [__call__]. cbn [formats_ok existsb] in Hok.
    unfold LayerNorm.forward.
    destruct (String.eqb (LayerNorm.data_format ln) "channels_last");
      [eexists; reflexivity|].
    destruct (String.eqb (LayerNorm.data_format ln) "channels_first");
      [eexists; reflexivity|discriminate].
  - cbn [formats_ok] in Hok.
    apply andb_true_iff in Hok. destruct Hok as [Hok Hdp].
    apply andb_true_iff in Hok. destruct Hok as [Hok Hp2].
    apply andb_true_iff in Hok. destruct Hok as [Hok Ha].
    apply andb_true_iff in Hok. destruct Hok as [Hok Hp1].
    apply andb_true_iff in Hok. destruct Hok as [Hdw Hn].
    cbn [__call__]. unfold Block.forward.
    destruct (IHdw Hdw x) as [y1 ->]. cbn [bind].
    destruct (IHn Hn (permute [0; 2; 3; 1] y1)) as [y2 ->]. cbn [bind].
    destruct (IHp1 Hp1 y2) as [y3 ->]. cbn [bind].
    destruct (IHa Ha y3) as [y4 ->]. cbn [bind].
    destruct (IHp2 Hp2 y4) as [y5 ->]. cbn [bind].
    match goal with
    | |- context [__call__ dp ?t] => destruct (IHdp Hdp t) as [y6 ->]
    end.
    cbn [bind]. eexists; reflexivity.
Qed.

Lemma built_block_formats_ok (D : nat) (lsiv : Q) (act : Callable)
    (bs : list nn_Module) :
  Forall (built_block D lsiv act) bs ->
  formats_ok (apply _init_weights (nn_Sequential bs)) = true.
Proof.
  intros Hbs. rewrite formats_ok_init_weights. cbn [formats_ok].
  induction Hbs as [|b bs [dp Hb] _ IH]; [reflexivity|].
  cbn [forallb]. rewrite IH, andb_true_r.
  rewrite Block_init_Ok in Hb. injection Hb as <-.
  now destruct (Qgt_bool dp 0).
Qed.

(** X10.  On a constructed model [forward_features] and [forward] return
    a tensor for every input: every LayerNorm inside has one of the two
    formats, so no layer is handed a [None].  (The kernels of the tensor
    library are taken to return.) *)
Theorem ConvNeXt_forward_returns {T : Torch}
    ic nc depths dims dpr lsiv his act m :
  ConvNeXt.__init__ ic nc depths dims dpr lsiv his act = Ok m ->
  forall x, exists features y,
    ConvNeXt.forward_features m x = Ok features /\
    ConvNeXt.forward m x = Ok y.
Proof.
  intros Hm x. apply ConvNeXt_init_inv in Hm.
  destruct Hm as (D0 & D1 & D2 & D3 & Drest & n0 & n1 & n2 & n3 & nrest
                  & b0 & b1 & b2 & b3 & Hdims & Hdepths
                  & [_ H0] & [_ H1] & [_ H2] & [_ H3] & ->).
  assert (Hf : exists features,
             ConvNeXt.forward_features
               (ConvNeXt.mk
                  (map (apply _init_weights)
                     [stem_layer ic D0; down_layer D0 D1; down_layer D1 D2;
                      down_layer D2 D3])
                  (map (apply _init_weights)
                     [nn_Sequential b0; nn_Sequential b1; nn_Sequential b2;
                      nn_Sequential b3])
                  (nn_LayerNorm [last dims 0] eps6 (ones [last dims 0])
                     (zeros [last dims 0]))
                  (nn_Linear (last dims 0) nc
                     (mkParam [nc; last dims 0]
                        [trunc_normal_ (2 # 100); mul_ his])
                     (mkParam [nc] [constant_ 0; mul_ his]))) x
             = Ok features).
  { unfold ConvNeXt.forward_features.
    cbn [for_ seq getitem nth_error ConvNeXt.downsample_layers
         ConvNeXt.stages ConvNeXt.norm map bind].
    pose proof (built_block_formats_ok H0) as F0.
    pose proof (built_block_formats_ok H1) as F1.
    pose proof (built_block_formats_ok H2) as F2.
    pose proof (built_block_formats_ok H3) as F3.
    repeat match goal with
           | |- context [bind (__call__ ?l ?t) _] =>
               let y := fresh "y" in
               let Hy := fresh "Hy" in
               destruct (@call_returns T l
                           ltac:(first [assumption | reflexivity]) t)
                 as [y Hy];
               rewrite Hy; cbn [bind]
           end.
    eexists. reflexivity. }
  destruct Hf as [features Hf]. exists features. eexists.
  split; [exact Hf|].
  unfold ConvNeXt.forward. rewrite Hf. reflexivity.
Qed.

Lemma ConvNeXt_forward_returns_witness :
  exists m,
    small_model = Ok m /\
    forall x, exists features y,
      @ConvNeXt.forward_features pass_through m x = Ok features /\
      @ConvNeXt.forward pass_through m x = Ok y.
Proof.
  eexists. split; [reflexivity|].
  apply (@ConvNeXt_forward_returns pass_through 3 10 [1; 2; 1; 1]
           [4; 8; 16; 32] (1 # 10)%Q eps6 1%Q (Class GELU)).
  reflexivity.
Defined.

(** ** The two permutations of a block *)

(** X11.  [permute(0, 2, 3, 1)] takes an (N, C, H, W) tensor to shape
    (N, H, W, C) and [permute(0, 3, 1, 2)] takes it back to the tensor it
    was; the same holds in the other order. *)
Theorem permute_round_trip (x : Tensor) (N C H W : nat) :
  (shape x = [N; C; H; W] ->
   shape (permute [0; 2; 3; 1] x) = [N; H; W; C] /\
   teq (permute [0; 3; 1; 2] (permute [0; 2; 3; 1] x)) x) /\
  (shape x = [N; H; W; C] ->
   shape (permute [0; 3; 1; 2] x) = [N; C; H; W] /\
   teq (permute [0; 2; 3; 1] (permute [0; 3; 1; 2] x)) x).
Proof.
  split; intros Hx.
  - split; [now apply shape_permute_0231|].
    now apply permute_back with N C H W.
  - split; [now apply shape_permute_0312|]. split.
    + rewrite Hx. apply shape_permute_0231, shape_permute_0312, Hx.
    + intros idx Hin.
      rewrite (shape_permute_0231 _ (shape_permute_0312 _ Hx)) in Hin.
      inversion Hin as [|n ? i1 ? Hn H1]; subst.
      inversion H1 as [|h ? i2 ? Hh H2]; subst.
      inversion H2 as [|w ? i3 ? Hw H3]; subst.
      inversion H3 as [|c ? i4 ? Hc H4]; subst.
      inversion H4; subst.
      rewrite (elem_permute_0231 _ n h w c (shape_permute_0312 _ Hx)).
      apply elem_permute_0312 with (1 := Hx).
Qed.

Lemma permute_round_trip_witness :
  shape (ones [2; 3; 4; 5]) = [2; 3; 4; 5] /\
  shape (permute [0; 2; 3; 1] (ones [2; 3; 4; 5])) = [2; 4; 5; 3] /\
  teq (permute [0; 3; 1; 2] (permute [0; 2; 3; 1] (ones [2; 3; 4; 5])))
      (ones [2; 3; 4; 5]).
Proof.
  split; [reflexivity|].
  apply (proj1 (@permute_round_trip (ones [2; 3; 4; 5]) 2 3 4 5)).
  reflexivity.
Defined.

(** ** What the channels_first LayerNorm computes *)

Lemma Rsum_plus (n : nat) (f g : nat -> R) :
  Rsum n (fun k => (f k + g k)%R) = (Rsum n f + Rsum n g)%R.
Proof.
  unfold Rsum. induction (seq 0 n) as [|k l IH]; simpl; [ring|].
  rewrite IH. ring.
Qed.

Lemma Rsum_scal (n : nat) (c : R) (f : nat -> R) :
  Rsum n (fun k => (c * f k)%R) = (c * Rsum n f)%R.
Proof.
  unfold Rsum. induction (seq 0 n) as [|k l IH]; simpl; [ring|].
  rewrite IH. ring.
Qed.

Lemma Rsum_const (n : nat) (c : R) :
  Rsum n (fun _ => c) = (INR n * c)%R.
Proof.
  unfold Rsum. rewrite <- (length_seq n 0) at 2.
  induction (seq 0 n) as [|k l IH]; [simpl; ring|].
  cbn [fold_right]. rewrite IH.
  change (length (k :: l)) with (S (length l)). rewrite S_INR. ring.
Qed.

Lemma Rsum_nonneg (n : nat) (f : nat -> R) :
  (forall k, 0 <= f k)%R -> (0 <= Rsum n f)%R.
Proof.
  intros Hf. unfold Rsum. induction (seq 0 n) as [|k l IH]; simpl.
  - apply Rle_refl.
  - apply Rplus_le_le_0_compat; [apply Hf|exact IH].
Qed.

Lemma channel_var_nonneg (x : Tensor) (C n h w : nat) :
  (0 <= channel_var x C n h w)%R.
Proof.
  unfold channel_var, Rdiv. apply Rmult_le_pos.
  - apply Rsum_nonneg. intros k. apply pow2_ge_0.
  - destruct C as [|C]; [simpl; rewrite Rinv_0; apply Rle_refl|].
    left. apply Rinv_0_lt_compat. apply lt_0_INR. lia.
Qed.

(** The deviations from the channel mean sum to zero. *)
Lemma deviations_sum_zero (x : Tensor) (C n h w : nat) :
  0 < C ->
  Rsum C (fun k => (elem x [n; k; h; w] - channel_mean x C n h w)%R) = 0%R.
Proof.
  intros HC.
  assert (HCR : INR C <> 0%R) by (apply not_0_INR; lia).
  transitivity (Rsum C (fun k => elem x [n; k; h; w])
                + Rsum C (fun _ => (- channel_mean x C n h w)%R))%R.
  - rewrite <- Rsum_plus. apply Rsum_ext. intros k _. ring.
  - rewrite Rsum_const. unfold channel_mean. field. exact HCR.
Qed.

Lemma channel_mean_shift (x x' : Tensor) (C n h w : nat) (t : R) :
  0 < C ->
  (forall k, k < C -> elem x' [n; k; h; w] = (elem x [n; k; h; w] + t)%R) ->
  channel_mean x' C n h w = (channel_mean x C n h w + t)%R.
Proof.
  intros HC Hx'. unfold channel_mean.
  rewrite (@Rsum_ext C _ _ Hx'), Rsum_plus, Rsum_const.
  field. apply not_0_INR. lia.
Qed.

Lemma channel_var_shift (x x' : Tensor) (C n h w : nat) (t : R) :
  0 < C ->
  (forall k, k < C -> elem x' [n; k; h; w] = (elem x [n; k; h; w] + t)%R) ->
  channel_var x' C n h w = channel_var x C n h w.
Proof.
  intros HC Hx'. unfold channel_var.
  rewrite (channel_mean_shift x x' n h w HC Hx').
  f_equal. apply Rsum_ext. intros k Hk. rewrite (Hx' k Hk). f_equal. ring.
Qed.

Lemma eps6_pos : (0 < Q2R eps6)%R.
Proof. unfold Q2R, eps6. simpl. lra. Qed.

(** X12.  A channels_first LayerNorm as constructed (weight 1, bias 0,
    positive eps) returns, for an (N, C, H, W) input with C > 0, a tensor
    of the same shape whose mean over the channels is 0 at every position
    and whose biased variance over the channels is var / (var + eps),
    where var is that of the input. *)
Theorem LayerNorm_standardises (C : nat) (eps : Q) (ln : LayerNorm.t)
    (x : Tensor) (N H W : nat) :
  LayerNorm.__init__ C eps "channels_first" = Ok ln ->
  shape x = [N; C; H; W] -> 0 < C -> (0 < Q2R eps)%R ->
  exists y,
    LayerNorm.forward ln x = Some y /\ shape y = shape x /\
    forall n h w, n < N -> h < H -> w < W ->
      channel_mean y C n h w = 0%R /\
      channel_var y C n h w
      = (channel_var x C n h w / (channel_var x C n h w + Q2R eps))%R.
Proof.
  intros Hln Hx HC Heps. injection Hln as <-.
  destruct (@channels_first_elem x (ones [C]) (zeros [C]) eps N C H W
              Hx eq_refl eq_refl) as (y & Hy & Hsy & Hey).
  exists y. split; [exact Hy|]. split; [congruence|].
  intros n h w Hn Hh Hw.
  set (v := channel_var x C n h w).
  set (u := channel_mean x C n h w).
  assert (Hv : (0 < v + Q2R eps)%R).
  { pose proof (channel_var_nonneg x C n h w). unfold v. lra. }
  assert (Hs : (0 < sqrt (v + Q2R eps))%R) by now apply sqrt_lt_R0.
  assert (HCR : INR C <> 0%R) by (apply not_0_INR; lia).
  assert (Hyk : forall k, k < C ->
            elem y [n; k; h; w]
            = (/ sqrt (v + Q2R eps) * (elem x [n; k; h; w] - u))%R).
  { intros k Hk. rewrite (Hey n k h w Hn Hk Hh Hw). simpl.
    fold u. fold v. field. lra. }
  assert (Hmean : channel_mean y C n h w = 0%R).
  { unfold channel_mean. rewrite (@Rsum_ext C _ _ Hyk), Rsum_scal.
    unfold u. rewrite (@deviations_sum_zero x C n h w HC). field.
    split; [lra|exact HCR]. }
  split; [exact Hmean|].
  unfold channel_var at 1. rewrite Hmean.
  rewrite (@Rsum_ext C _
             (fun k => (/ (v + Q2R eps)
                        * (elem x [n; k; h; w] - u) ^ 2)%R)).
  - rewrite Rsum_scal. unfold v at 2. unfold channel_var. fold u. fold v.
    field. split; [exact HCR|lra].
  - intros k Hk. rewrite (Hyk k Hk).
    replace ((/ sqrt (v + Q2R eps) * (elem x [n; k; h; w] - u) - 0) ^ 2)%R
      with ((elem x [n; k; h; w] - u) ^ 2
            * / (sqrt (v + Q2R eps) * sqrt (v + Q2R eps)))%R
      by (field; lra).
    rewrite sqrt_sqrt by lra. ring.
Qed.

Lemma LayerNorm_standardises_witness :
  LayerNorm.__init__ 3 eps6 "channels_first"
  = Ok (LayerNorm.mk (ones [3]) (zeros [3]) eps6 "channels_first" [3]) /\
  shape (ones [2; 3; 4; 4]) = [2; 3; 4; 4] /\ 0 < 3 /\
  Rlt 0 (Q2R eps6) /\
  exists y,
    LayerNorm.forward
      (LayerNorm.mk (ones [3]) (zeros [3]) eps6 "channels_first" [3])
      (ones [2; 3; 4; 4]) = Some y /\
    shape y = shape (ones [2; 3; 4; 4]) /\
    forall n h w, n < 2 -> h < 4 -> w < 4 ->
      channel_mean y 3 n h w = IZR 0 /\
      channel_var y 3 n h w
      = Rdiv (channel_var (ones [2; 3; 4; 4]) 3 n h w)
             (Rplus (channel_var (ones [2; 3; 4; 4]) 3 n h w) (Q2R eps6)).
Proof.
  assert (H3 : 0 < 3) by lia.
  split; [reflexivity|]. split; [reflexivity|]. split; [exact H3|].
  split; [exact eps6_pos|].
  exact (@LayerNorm_standardises 3 eps6 _ (ones [2; 3; 4; 4]) 2 4 4
           eq_refl eq_refl H3 eps6_pos).
Defined.

(** X13.  Over the real numbers (tensors hold reals here, so rounding,
    overflow and NaN are outside the statement) and with a positive eps,
    the formula of the channels_first LayerNorm looks at one position at a
    time and ignores a common offset: if at a position (n, h, w) the input
    [x'] is [x] plus one number [t] on every channel, the two outputs agree
    on all channels at that position.  With [t = 0]: the output at a
    position depends on the input at that position only. *)
Theorem LayerNorm_shift_invariant (x x' wt bs : Tensor) (eps : Q)
    (N C H W n h w : nat) (t : R) :
  shape x = [N; C; H; W] -> shape x' = [N; C; H; W] ->
  shape wt = [C] -> shape bs = [C] -> (0 < Q2R eps)%R ->
  n < N -> h < H -> w < W ->
  (forall k, k < C -> elem x' [n; k; h; w] = (elem x [n; k; h; w] + t)%R) ->
  exists y y',
    LayerNorm.forward (LayerNorm.mk wt bs eps "channels_first" [C]) x
    = Some y /\
    LayerNorm.forward (LayerNorm.mk wt bs eps "channels_first" [C]) x'
    = Some y' /\
    forall c, c < C -> elem y' [n; c; h; w] = elem y [n; c; h; w].
Proof.
  intros Hx Hx' Hwt Hbs _ Hn Hh Hw Hshift.
  destruct (@channels_first_elem x wt bs eps N C H W Hx Hwt Hbs)
    as (y & Hy & _ & Hey).
  destruct (@channels_first_elem x' wt bs eps N C H W Hx' Hwt Hbs)
    as (y' & Hy' & _ & Hey').
  exists y, y'. split; [exact Hy|]. split; [exact Hy'|].
  intros c Hc. assert (HC : 0 < C) by lia.
  rewrite (Hey n c h w Hn Hc Hh Hw), (Hey' n c h w Hn Hc Hh Hw).
  rewrite (channel_mean_shift x x' n h w HC Hshift).
  rewrite (channel_var_shift x x' n h w HC Hshift).
  rewrite (Hshift c Hc). do 3 f_equal. ring.
Qed.

Lemma LayerNorm_shift_invariant_witness :
  shape (zeros [2; 3; 4; 4]) = [2; 3; 4; 4] /\
  shape (ones [2; 3; 4; 4]) = [2; 3; 4; 4] /\
  shape (ones [3]) = [3] /\ shape (zeros [3]) = [3] /\
  Rlt 0 (Q2R eps6) /\ 1 < 2 /\ 2 < 4 /\ 3 < 4 /\
  (forall k, k < 3 ->
     elem (ones [2; 3; 4; 4]) [1; k; 2; 3]
     = Rplus (elem (zeros [2; 3; 4; 4]) [1; k; 2; 3]) (IZR 1)) /\
  exists y y',
    LayerNorm.forward
      (LayerNorm.mk (ones [3]) (zeros [3]) eps6 "channels_first" [3])
      (zeros [2; 3; 4; 4]) = Some y /\
    LayerNorm.forward
      (LayerNorm.mk (ones [3]) (zeros [3]) eps6 "channels_first" [3])
      (ones [2; 3; 4; 4]) = Some y' /\
    forall c, c < 3 -> elem y' [1; c; 2; 3] = elem y [1; c; 2; 3].
Proof.
  assert (H1 : 1 < 2) by lia.
  assert (H2 : 2 < 4) by lia.
  assert (H3 : 3 < 4) by lia.
  assert (Hs : forall k, k < 3 ->
             elem (ones [2; 3; 4; 4]) [1; k; 2; 3]
             = Rplus (elem (zeros [2; 3; 4; 4]) [1; k; 2; 3]) (IZR 1))
    by (intros k _; simpl; ring).
  split; [reflexivity|]. split; [reflexivity|]. split; [reflexivity|].
  split; [reflexivity|]. split; [exact eps6_pos|].
  split; [exact H1|]. split; [exact H2|]. split; [exact H3|].
  split; [exact Hs|].
  exact (@LayerNorm_shift_invariant (zeros [2; 3; 4; 4]) (ones [2; 3; 4; 4])
           (ones [3]) (zeros [3]) eps6 2 3 4 4 1 2 3 (IZR 1)
           eq_refl eq_refl eq_refl eq_refl eps6_pos H1 H2 H3 Hs).
Defined.

(** X14.  Over the real numbers (tensors hold reals here, so rounding,
    overflow and NaN are outside the statement) and with a positive eps:
    where the input has the same value on every channel of a position, the
    formula of the channels_first LayerNorm returns the bias there,
    whatever real numbers the weight holds. *)
Theorem LayerNorm_constant_channels (x wt bs : Tensor) (eps : Q)
    (N C H W n h w : nat) (a : R) :
  shape x = [N; C; H; W] -> shape wt = [C] -> shape bs = [C] ->
  (0 < Q2R eps)%R -> n < N -> h < H -> w < W ->
  (forall k, k < C -> elem x [n; k; h; w] = a) ->
  exists y,
    LayerNorm.forward (LayerNorm.mk wt bs eps "channels_first" [C]) x
    = Some y /\
    forall c, c < C -> elem y [n; c; h; w] = elem bs [c].
Proof.
  intros Hx Hwt Hbs _ Hn Hh Hw Hconst.
  destruct (@channels_first_elem x wt bs eps N C H W Hx Hwt Hbs)
    as (y & Hy & _ & Hey).
  exists y. split; [exact Hy|]. intros c Hc.
  rewrite (Hey n c h w Hn Hc Hh Hw).
  assert (Hmean : channel_mean x C n h w = a).
  { unfold channel_mean. rewrite (@Rsum_ext C _ (fun _ => a) Hconst).
    rewrite Rsum_const. field. apply not_0_INR. lia. }
  rewrite Hmean, (Hconst c Hc). unfold Rdiv. ring.
Qed.

Lemma LayerNorm_constant_channels_witness :
  shape (ones [2; 3; 4; 4]) = [2; 3; 4; 4] /\
  shape (ones [3]) = [3] /\ shape (zeros [3]) = [3] /\
  Rlt 0 (Q2R eps6) /\ 1 < 2 /\ 2 < 4 /\ 3 < 4 /\
  (forall k, k < 3 -> elem (ones [2; 3; 4; 4]) [1; k; 2; 3] = IZR 1) /\
  exists y,
    LayerNorm.forward
      (LayerNorm.mk (ones [3]) (zeros [3]) eps6 "channels_first" [3])
      (ones [2; 3; 4; 4]) = Some y /\
    forall c, c < 3 -> elem y [1; c; 2; 3] = elem (zeros [3]) [c].
Proof.
  assert (H1 : 1 < 2) by lia.
  assert (H2 : 2 < 4) by lia.
  assert (H3 : 3 < 4) by lia.
  assert (Hc : forall k, k < 3 ->
             elem (ones [2; 3; 4; 4]) [1; k; 2; 3] = IZR 1)
    by (intros k _; reflexivity).
  split; [reflexivity|]. split; [reflexivity|]. split; [reflexivity|].
  split; [exact eps6_pos|].
  split; [exact H1|]. split; [exact H2|]. split; [exact H3|].
  split; [exact Hc|].
  exact (@LayerNorm_constant_channels (ones [2; 3; 4; 4]) (ones [3])
           (zeros [3]) eps6 2 3 4 4 1 2 3 (IZR 1)
           eq_refl eq_refl eq_refl eps6_pos H1 H2 H3 Hc).
Defined.

(** ** Parameter counts *)

Lemma n_params_init_weights (m : nn_Module) :
  n_params (apply _init_weights m) = n_params m.
Proof.
  induction m as [i o k s p g w b|i o w b|ns e w b| |layers IH|q|a|ln
                 |dw n p1 a p2 g dp IHdw IHn IHp1 IHa IHp2 IHdp]
    using nn_Module_induction; try reflexivity.
  - cbn [apply _init_weights n_params].
    induction IH as [|l ls Hl _ IHl]; [reflexivity|].
    cbn [map fold_right]. now rewrite Hl, IHl.
  - cbn [apply _init_weights n_params].
    now rewrite IHdw, IHn, IHp1, IHa, IHp2, IHdp.
Qed.

Lemma built_block_n_params (D : nat) (lsiv : Q) (act : Callable)
    (b : nn_Module) :
  0 < D -> built_block D lsiv act b -> n_params b = block_n_params lsiv D.
Proof.
  intros HD [dp Hb]. rewrite Block_init_Ok in Hb. injection Hb as <-.
  unfold block_n_params.
  cbn [n_params Conv2d Linear new_param param_shape LayerNorm.weight
       LayerNorm.bias ones zeros shape numel fold_right].
  rewrite (Nat.div_same D) by lia.
  destruct (Qgt_bool lsiv 0), (Qgt_bool dp 0);
    cbn [n_params shape tmap ones numel fold_right]; lia.
Qed.

Lemma stage_n_params (D : nat) (lsiv : Q) (act : Callable)
    (bs : list nn_Module) :
  0 < D -> Forall (built_block D lsiv act) bs ->
  n_params (nn_Sequential bs)
  = (Z.of_nat (length bs) * block_n_params lsiv D)%Z.
Proof.
  intros HD Hbs. cbn [n_params].
  induction Hbs as [|b bs Hb _ IH]; [reflexivity|].
  cbn [fold_right length]. rewrite IH, (built_block_n_params HD Hb).
  rewrite Nat2Z.inj_succ. ring.
Qed.

(** The count of a constructed model, by layer: the stem, the three
    downsampling layers, the four stages, the final norm and the head. *)
Lemma model_n_params_formula ic nc depths dims dpr lsiv his act m :
  ConvNeXt.__init__ ic nc depths dims dpr lsiv his act = Ok m ->
  Forall (fun d => 0 < d) dims ->
  forall D0 D1 D2 D3 n0 n1 n2 n3,
    firstn 4 dims = [D0; D1; D2; D3] ->
    firstn 4 depths = [n0; n1; n2; n3] ->
    let z := Z.of_nat in
    model_n_params m
    = ((16 * z ic * z D0 + z D0 + 2 * z D0)
       + (2 * z D0 + 4 * z D0 * z D1 + z D1)
       + (2 * z D1 + 4 * z D1 * z D2 + z D2)
       + (2 * z D2 + 4 * z D2 * z D3 + z D3)
       + (z n0 * block_n_params lsiv D0 + z n1 * block_n_params lsiv D1
          + z n2 * block_n_params lsiv D2 + z n3 * block_n_params lsiv D3)
       + 2 * z (last dims 0%nat)
       + (z nc * z (last dims 0%nat) + z nc))%Z.
Proof.
  intros Hm Hpos D0 D1 D2 D3 n0 n1 n2 n3 Hdims Hdepths z.
  apply ConvNeXt_init_inv in Hm.
  destruct Hm as (E0 & E1 & E2 & E3 & Drest & m0 & m1 & m2 & m3 & nrest
                  & b0 & b1 & b2 & b3 & Hd & Hn
                  & [L0 H0] & [L1 H1] & [L2 H2] & [L3 H3] & ->).
  rewrite Hd in Hdims. rewrite Hn in Hdepths.
  injection Hdims as -> -> -> ->. injection Hdepths as -> -> -> ->.
  assert (P : 0 < D0 /\ 0 < D1 /\ 0 < D2 /\ 0 < D3).
  { rewrite Hd in Hpos.
    inversion Hpos as [|? ? P0 Q0]; subst.
    inversion Q0 as [|? ? P1 Q1]; subst.
    inversion Q1 as [|? ? P2 Q2]; subst.
    inversion Q2 as [|? ? P3 Q3]; subst. auto. }
  destruct P as (P0 & P1 & P2 & P3).
  unfold model_n_params.
  cbn [ConvNeXt.downsample_layers ConvNeXt.stages ConvNeXt.norm
       ConvNeXt.head map fold_right].
  rewrite !n_params_init_weights.
  rewrite (stage_n_params P0 H0), (stage_n_params P1 H1),
    (stage_n_params P2 H2), (stage_n_params P3 H3).
  rewrite L0, L1, L2, L3.
  cbn [n_params stem_layer down_layer Conv2d new_param param_shape
       LayerNorm.weight LayerNorm.bias ones zeros shape numel fold_right].
  rewrite !Nat.div_1_r. unfold z. lia.
Qed.

(** X15.  The learnable scalars of a constructed model with positive
    widths, those of the activations apart, number: 16 in_chans D0 + 3 D0
    for the stem, 2 D + 4 D D' + D' for a downsampling layer from width D
    to D', 8 D^2 + 57 D (and D more with layer scale) for each of the
    [depths[i]] blocks of width D = [dims[i]], and for the final norm and
    the head 2 d + num_classes d + num_classes with d = [dims[-1]]. *)
Theorem ConvNeXt_n_params ic nc depths dims dpr lsiv his act m :
  ConvNeXt.__init__ ic nc depths dims dpr lsiv his act = Ok m ->
  Forall (fun d => 0 < d) dims ->
  forall D0 D1 D2 D3 n0 n1 n2 n3,
    firstn 4 dims = [D0; D1; D2; D3] ->
    firstn 4 depths = [n0; n1; n2; n3] ->
    let z := Z.of_nat in
    model_n_params m
    = ((16 * z ic * z D0 + z D0 + 2 * z D0)
       + (2 * z D0 + 4 * z D0 * z D1 + z D1)
       + (2 * z D1 + 4 * z D1 * z D2 + z D2)
       + (2 * z D2 + 4 * z D2 * z D3 + z D3)
       + (z n0 * block_n_params lsiv D0 + z n1 * block_n_params lsiv D1
          + z n2 * block_n_params lsiv D2 + z n3 * block_n_params lsiv D3)
       + 2 * z (last dims 0%nat)
       + (z nc * z (last dims 0%nat) + z nc))%Z.
Proof.
  exact (@model_n_params_formula ic nc depths dims dpr lsiv his act m).
Qed.

Lemma ConvNeXt_n_params_witness :
  exists m,
    small_model = Ok m /\
    Forall (fun d => 0 < d) [4; 8; 16; 32] /\
    firstn 4 [4; 8; 16; 32] = [4; 8; 16; 32] /\
    firstn 4 [1; 2; 1; 1] = [1; 2; 1; 1] /\
    model_n_params m = 18734%Z.
Proof.
  eexists. split; [reflexivity|].
  assert (Hp : Forall (fun d => 0 < d) [4; 8; 16; 32])
    by (repeat constructor; lia).
  split; [exact Hp|]. split; [reflexivity|]. split; [reflexivity|].
  rewrite (@ConvNeXt_n_params 3 10 [1; 2; 1; 1] [4; 8; 16; 32] (1 # 10)%Q
             eps6 1%Q (Class GELU) _ eq_refl Hp 4 8 16 32 1 2 1 1
             eq_refl eq_refl).
  reflexivity.
Defined.

Lemma new_n_params depths dims act kwargs m D0 D1 D2 D3 n0 n1 n2 n3 :
  ConvNeXt_call.new depths dims act kwargs = Ok m ->
  kw_in_chans kwargs = None -> kw_num_classes kwargs = None ->
  kw_layer_scale_init_value kwargs = None ->
  Forall (fun d => 0 < d) dims ->
  dims = [D0; D1; D2; D3] -> depths = [n0; n1; n2; n3] ->
  let z := Z.of_nat in
  model_n_params m
  = ((16 * 3 * z D0 + z D0 + 2 * z D0)
     + (2 * z D0 + 4 * z D0 * z D1 + z D1)
     + (2 * z D1 + 4 * z D1 * z D2 + z D2)
     + (2 * z D2 + 4 * z D2 * z D3 + z D3)
     + (z n0 * (8 * z D0 * z D0 + 58 * z D0)
        + z n1 * (8 * z D1 * z D1 + 58 * z D1)
        + z n2 * (8 * z D2 * z D2 + 58 * z D2)
        + z n3 * (8 * z D3 * z D3 + 58 * z D3))
     + 2 * z D3 + (1000 * z D3 + 1000))%Z.
Proof.
  intros Hm Hic Hnc Hls Hpos -> -> z.
  apply new_Ok in Hm.
  rewrite Hic, Hnc, Hls in Hm. cbn [default] in Hm.
  rewrite (@model_n_params_formula _ _ _ _ _ _ _ _ _ Hm Hpos
             D0 D1 D2 D3 n0 n1 n2 n3 eq_refl eq_refl).
  unfold block_n_params. cbn [last]. unfold z.
  change (Qgt_bool (1 # 1000000) 0) with true. cbv iota.
  change (Z.of_nat 3) with 3%Z. change (Z.of_nat 1000) with 1000%Z. lia.
Qed.

(** X16.  Called without [in_chans], [num_classes] and
    [layer_scale_init_value], a registered constructor builds a model
    with, the activations' own parameters apart, 28,589,128 learnable
    scalars for a [_tiny] name, 50,223,688 for a [_small] name and
    88,591,464 for a [_base] name. *)
Theorem registered_n_params (name : string) (fn : ModelFn) :
  In (name, fn) model_registry ->
  forall pretrained in_22k kwargs m,
    fn pretrained in_22k kwargs = Ok m ->
    kw_in_chans kwargs = None -> kw_num_classes kwargs = None ->
    kw_layer_scale_init_value kwargs = None ->
    model_n_params m
    = (if ends_with "_tiny" name then 28589128
       else if ends_with "_small" name then 50223688
       else 88591464)%Z.
Proof.
  intros Hin pretrained in_22k kwargs m Hm Hic Hnc Hls.
  registry_cases Hin;
    (unfold_constructor Hm;
     match type of Hm with
     | ConvNeXt_call.new [?n0; ?n1; ?n2; ?n3] [?D0; ?D1; ?D2; ?D3] _ _ = _ =>
         rewrite (@new_n_params _ _ _ _ _ D0 D1 D2 D3 n0 n1 n2 n3 Hm
                    Hic Hnc Hls ltac:(repeat constructor; lia)
                    eq_refl eq_refl)
     end;
     vm_compute; reflexivity).
Qed.

Lemma registered_n_params_witness :
  In ("convnext_hermite_tiny", convnext_hermite_tiny) model_registry /\
  exists m,
    convnext_hermite_tiny false false no_kwargs = Ok m /\
    kw_in_chans no_kwargs = None /\ kw_num_classes no_kwargs = None /\
    kw_layer_scale_init_value no_kwargs = None /\
    model_n_params m = 28589128%Z.
Proof.
  split; [exact In_model_registry_tiny|].
  eexists. split; [reflexivity|].
  split; [reflexivity|]. split; [reflexivity|]. split; [reflexivity|].
  exact (@registered_n_params "convnext_hermite_tiny" convnext_hermite_tiny
           In_model_registry_tiny false false no_kwargs _ eq_refl
           eq_refl eq_refl eq_refl).
Defined.
